(** * Solemn-Assistant: the LINE webhook worker of [src/index.ts]

    A shallow embedding of the worker (request authentication, payload
    parsing, per-event eligibility, question extraction, the two outbound
    calls) and the properties its design document states about it.

    Conventions.
    - A JavaScript string is the list of its UTF-16 code units, each an
      integer in [0, 65536).
    - A JavaScript number that the code uses as an offset is an integer of
      [Z]; the code only adds, subtracts and compares such numbers, which is
      exact on integers.
    - [async] functions are computations that produce the list of the
      effects they perform (console output, outbound requests) and either
      fulfil with a value or reject with a thrown error. *)

From Stdlib Require Import ZArith List String Ascii Bool Lia Permutation Sorted DecimalString.
Import ListNotations.
Set Warnings "-register-all".
Local Open Scope Z_scope.
Local Open Scope list_scope.

(* ===================================================================== *)
(** * Part I. Definitions                                                 *)
(* ===================================================================== *)

(** ** JavaScript strings *)

Definition jsstring : Type := list Z.

(** The code units of an ASCII literal. *)
Definition str (s : string) : jsstring :=
  map (fun a => Z.of_nat (nat_of_ascii a)) (list_ascii_of_string s).
Arguments str s%_string.

Definition isCodeUnit (c : Z) : bool := (0 <=? c) && (c <? 65536).

(** Every value of the JavaScript string type satisfies this. *)
Definition wf_string (s : jsstring) : Prop := forallb isCodeUnit s = true.

(** [a === b] on strings. *)
Fixpoint streq (a b : jsstring) : bool :=
  match a, b with
  | [], [] => true
  | x :: a', y :: b' => (x =? y) && streq a' b'
  | _, _ => false
  end.

(** ToBoolean on a string: the empty string is falsy. *)
Definition truthy (s : jsstring) : bool :=
  match s with [] => false | _ :: _ => true end.

(** ToBoolean on an optional string member: [undefined] is falsy. *)
Definition truthyOpt (o : option jsstring) : bool :=
  match o with None => false | Some s => truthy s end.

(** WhiteSpace and LineTerminator code points of ECMAScript, the characters
    that [String.prototype.trim] strips. All lie in the basic plane. *)
Definition isWhiteSpace (c : Z) : bool :=
  ((9 <=? c) && (c <=? 13))
  || (c =? 32) || (c =? 160) || (c =? 5760)
  || ((8192 <=? c) && (c <=? 8202))
  || (c =? 8232) || (c =? 8233) || (c =? 8239) || (c =? 8287)
  || (c =? 12288) || (c =? 65279).

Fixpoint dropWhile {A : Type} (p : A -> bool) (l : list A) : list A :=
  match l with
  | [] => []
  | x :: l' => if p x then dropWhile p l' else l
  end.

Definition trimStart (s : jsstring) : jsstring := dropWhile isWhiteSpace s.
Definition trimEnd (s : jsstring) : jsstring := rev (dropWhile isWhiteSpace (rev s)).

(** [s.trim()] *)
Definition trim (s : jsstring) : jsstring := trimEnd (trimStart s).

(** *** [String.prototype.slice]

    A negative argument counts from the end; both bounds are clamped to
    [0, length]; an empty range gives the empty string. *)

Definition relativeIndex (len k : Z) : Z :=
  if k <? 0 then Z.max (len + k) 0 else Z.min k len.

(** The substring from [from] (inclusive) to [to] (exclusive). *)
Definition substring (s : jsstring) (from to : Z) : jsstring :=
  firstn (Z.to_nat (to - from)) (skipn (Z.to_nat from) s).

(** [s.slice(start, end_)]; [end_ = None] is an omitted second argument. *)
Definition slice (s : jsstring) (start : Z) (end_ : option Z) : jsstring :=
  let len := Z.of_nat (List.length s) in
  let from := relativeIndex len start in
  let to := match end_ with
            | None => len
            | Some e => relativeIndex len e
            end in
  if to <=? from then [] else substring s from to.

(** *** [charCodeAt] and the 32-bit bitwise operators *)

(** [s.charCodeAt(i)]; [None] is NaN, the result out of range. *)
Definition charCodeAt (s : jsstring) (i : nat) : option Z := nth_error s i.

(** ToInt32 on an integer: wrap to the signed 32-bit range. *)
Definition wrap32 (z : Z) : Z := (z + 2 ^ 31) mod 2 ^ 32 - 2 ^ 31.

(** ToInt32 on the result of [charCodeAt]: NaN converts to 0. *)
Definition ToInt32 (x : option Z) : Z :=
  match x with None => 0 | Some z => wrap32 z end.

(** [x ^ y] *)
Definition bitXor (x y : option Z) : Z := Z.lxor (ToInt32 x) (ToInt32 y).

(** [x | y] *)
Definition bitOr (x y : option Z) : Z := Z.lor (ToInt32 x) (ToInt32 y).

(** ** Message model (the type declarations of [index.ts]) *)

(** An entry of [mention.mentionees]; [type] is never read by the code. *)
Record Mentionee := mkMentionee {
  mIndex : Z;
  mLength : Z;
  mUserId : option jsstring
}.

Record Mention := mkMention { mentionees : list Mentionee }.

Record LineTextMessage := mkTextMessage {
  msgId : jsstring;
  text : jsstring;
  mention : option Mention
}.

(** ** Question extraction *)

(** [Array.prototype.sort] with the comparator [(a, b) => b.index - a.index]:
    the stable arrangement by descending [index]. [insertDesc m l] places
    [m], which comes earlier in the array than every element of the sorted
    tail [l], in front of the first [x] with [compare(m, x) <= 0]: behind
    the elements of larger index, in front of those of equal index. *)
Fixpoint insertDesc (m : Mentionee) (l : list Mentionee) : list Mentionee :=
  match l with
  | [] => [m]
  | x :: l' =>
      if mIndex x - mIndex m <=? 0      (* compare(m, x) <= 0: m stays first *)
      then m :: l
      else x :: insertDesc m l'
  end.

Definition sortDesc (l : list Mentionee) : list Mentionee :=
  fold_right insertDesc [] l.

(** One iteration of the loop:
    [text = text.slice(0, m.index) + text.slice(m.index + m.length)]. *)
Definition removeSpan (t : jsstring) (m : Mentionee) : jsstring :=
  slice t 0 (Some (mIndex m)) ++ slice t (mIndex m + mLength m) None.

Definition extractQuestion (message : LineTextMessage) : jsstring :=
  match mention message with
  | None => text message
  | Some mn =>
      let sorted := sortDesc (mentionees mn) in
      trim (fold_left removeSpan sorted (text message))
  end.

(** ** Signature comparison *)

(** The loop [for (i = 0; i < a.length; i++) result |= a.charCodeAt(i) ^
    b.charCodeAt(i)] as a fold over the indices [0 .. a.length - 1]. *)
Definition timingSafeEqual (a b : jsstring) : bool :=
  if negb (Nat.eqb (List.length a) (List.length b)) then false
  else
    let result :=
      fold_left
        (fun result i => bitOr (Some result) (Some (bitXor (charCodeAt a i) (charCodeAt b i))))
        (seq 0 (List.length a)) 0 in
    result =? 0.

(** The base64 alphabet. *)
Definition base64Char (n : Z) : Z :=
  if n <? 26 then 65 + n
  else if n <? 52 then 97 + (n - 26)
  else if n <? 62 then 48 + (n - 52)
  else if n =? 62 then 43 else 47.

(** [btoa] on a binary string (every code unit below 256). *)
Fixpoint btoa (binary : jsstring) : jsstring :=
  match binary with
  | [] => []
  | [a] =>
      [base64Char (Z.shiftr a 2); base64Char (Z.shiftl (Z.land a 3) 4); 61; 61]
  | [a; b] =>
      [base64Char (Z.shiftr a 2);
       base64Char (Z.lor (Z.shiftl (Z.land a 3) 4) (Z.shiftr b 4));
       base64Char (Z.shiftl (Z.land b 15) 2); 61]
  | a :: b :: c :: rest =>
      base64Char (Z.shiftr a 2)
      :: base64Char (Z.lor (Z.shiftl (Z.land a 3) 4) (Z.shiftr b 4))
      :: base64Char (Z.lor (Z.shiftl (Z.land b 15) 2) (Z.shiftr c 6))
      :: base64Char (Z.land c 63)
      :: btoa rest
  end.

(** [buffer] is the byte content of the ArrayBuffer; [String.fromCharCode]
    of a byte is the one-unit string holding it. *)
Definition arrayBufferToBase64 (buffer : list Z) : jsstring :=
  let binary := fold_left (fun binary byte => binary ++ [byte]) buffer [] in
  btoa binary.

(** ** Events and configuration *)

Record Source := mkSource {
  userId : option jsstring;
  groupId : option jsstring;
  roomId : option jsstring
}.

(** [LineTextMessage | Record<string, unknown>], told apart by
    [isTextMessage]: an object whose [type] member is ["text"], or anything
    else. *)
Inductive Message :=
| TextMessage (m : LineTextMessage)
| OtherMessage.

(** The members of an event that the code reads. [replyToken] is optional
    here because the code tests it for absence. *)
Record LineEvent := mkEvent {
  eventType : jsstring;
  replyToken : option jsstring;
  source : Source;
  webhookEventId : jsstring;
  message : Message
}.

Record Env := mkEnv {
  OPENAI_API_KEY : jsstring;
  OPENAI_MODEL : jsstring;
  OPENAI_PROMPT : option jsstring;
  OPENAI_VECTOR_STORE_ID : option jsstring;
  ENABLE_DIRECT_CHAT_REPLY : option jsstring;
  LINE_CHANNEL_ACCESS_TOKEN : jsstring;
  LINE_CHANNEL_SECRET : jsstring;
  LINE_BOT_USER_ID : jsstring
}.

(** ** Values produced by [JSON.parse] *)

Inductive JsValue :=
| JNull
| JBool (b : bool)
| JNumber (n : Z)
| JString (s : jsstring)
| JArray (items : list JsValue)
| JObject (members : list (jsstring * JsValue)).

Fixpoint lookup (key : jsstring) (members : list (jsstring * JsValue)) : option JsValue :=
  match members with
  | [] => None
  | (k, v) :: rest => if streq k key then Some v else lookup key rest
  end.

(** [v.key] for a non-null [v] and a key that no prototype defines (every
    key read by this program is such); [None] is [undefined]. *)
Definition member (v : JsValue) (key : jsstring) : option JsValue :=
  match v with
  | JObject ms => lookup key ms
  | _ => None
  end.

(** [v[0]] for a non-null [v]. *)
Definition index0 (v : JsValue) : option JsValue :=
  match v with
  | JArray (x :: _) => Some x
  | JString (c :: _) => Some (JString [c])
  | JObject ms => lookup (str "0") ms
  | _ => None
  end.

(** Optional chaining [v?.get]: [undefined] when [v] is null or undefined. *)
Definition optChain (v : option JsValue) (get : JsValue -> option JsValue) : option JsValue :=
  match v with
  | None | Some JNull => None
  | Some x => get x
  end.

(** [typeof v === "string" && v.trim()], returning the trimmed text. *)
Definition nonBlankString (v : option JsValue) : option jsstring :=
  match v with
  | Some (JString s) => if truthy (trim s) then Some (trim s) else None
  | _ => None
  end.

(** The first element on which [f] returns, as a [for ... of] loop whose
    body may [return]. *)
Fixpoint firstSome {A B : Type} (f : A -> option B) (l : list A) : option B :=
  match l with
  | [] => None
  | x :: l' => match f x with Some b => Some b | None => firstSome f l' end
  end.

Definition extractOpenAIText (data : JsValue) : option jsstring :=
  match data with
  | JArray _ | JObject _ =>
      match nonBlankString (member data (str "output_text")) with
      | Some t => Some t
      | None =>
          let fromOutput :=
            match member data (str "output") with
            | Some (JArray output) =>
                firstSome
                  (fun item =>
                     match item with
                     | JArray _ | JObject _ =>
                         match member item (str "content") with
                         | Some (JArray content) =>
                             firstSome
                               (fun c =>
                                  match c with
                                  | JObject _ => nonBlankString (member c (str "text"))
                                  | _ => None
                                  end)
                               content
                         | _ => None
                         end
                     | _ => None
                     end)
                  output
            | _ => None
            end in
          match fromOutput with
          | Some t => Some t
          | None =>
              let choiceContent :=
                optChain
                  (optChain
                     (optChain (member data (str "choices")) index0)
                     (fun c => member c (str "message")))
                  (fun m => member m (str "content")) in
              nonBlankString choiceContent
          end
      end
  | _ => None
  end.

(** ** Effects and asynchronous computations *)

(** Values that the program throws: the engine's own errors and the three
    [new Error(...)] of [queryOpenAI] and [replyToLine]. *)
Inductive JsError :=
| TypeError                      (* member access or call on a non-object *)
| RangeError                     (* a string longer than the engine allows *)
| SyntaxError                    (* [response.json()] on a body that is not JSON *)
| NetworkError                   (* the outbound request itself failed *)
| OpenAIFailed (status : Z)      (* `OpenAI API failed with status ${status}` *)
| OpenAIEmpty                    (* "OpenAI response is empty" *)
| LineReplyFailed (status : Z).  (* `LINE reply failed with status ${status}` *)

Record OpenAIBody := mkOpenAIBody {
  model : jsstring;
  systemContent : jsstring;
  userContent : jsstring;
  max_output_tokens : Z;
  file_search : option jsstring    (* [tools], with its one vector store id *)
}.

(** The body that the earlier revision of the worker sends to the chat
    completions endpoint. *)
Record ChatBody := mkChatBody {
  chat_model : jsstring;
  messages : list (string * jsstring);    (* role, content *)
  prompt_id : option jsstring;
  max_tokens : Z
}.

(** The outbound POST requests, with their bearer credential. In the body of
    a reply, [replyToken] is the member as the event has it ([None]: the
    member is undefined and left out of the JSON text). *)
Inductive Request :=
| PostOpenAI (bearer : jsstring) (body : OpenAIBody)
| PostLineReply (bearer : jsstring) (replyToken : option jsstring) (replyText : jsstring)
| PostChatCompletions (bearer : jsstring) (body : ChatBody).

Record HttpResponse := mkResponse {
  resp_ok : bool;
  resp_status : Z;
  resp_text : jsstring;
  resp_json : option JsValue      (* [None]: the body is not JSON *)
}.

Inductive LogArg :=
| LogNumber (n : Z)
| LogString (s : jsstring)
| LogError (e : JsError).

Inductive Effect :=
| ConsoleError (label : string) (args : list LogArg)
| ConsoleWarn (label : string) (args : list LogArg)
| Fetch (req : Request).

(** What the outside answers to a request: a response, or no response. *)
Inductive FetchResult :=
| Responded (r : HttpResponse)
| Unreachable.

Definition Network : Type := Request -> FetchResult.

Inductive Settled (A : Type) :=
| Fulfilled (a : A)
| Rejected (e : JsError).
Arguments Fulfilled {A} a.
Arguments Rejected {A} e.

(** A promise-returning computation: run against the network, it yields the
    effects performed, in order, and how the promise settles. *)
Definition Async (A : Type) : Type := Network -> list Effect * Settled A.

Definition ret {A : Type} (a : A) : Async A := fun _ => ([], Fulfilled a).

Definition throw {A : Type} (e : JsError) : Async A := fun _ => ([], Rejected e).

Definition bind {A B : Type} (m : Async A) (k : A -> Async B) : Async B :=
  fun net =>
    match m net with
    | (tr, Fulfilled a) => let (tr', r) := k a net in (tr ++ tr', r)
    | (tr, Rejected e) => (tr, Rejected e)
    end.

Definition emit (e : Effect) : Async unit := fun _ => ([e], Fulfilled tt).

(** [await fetch(...)] *)
Definition httpFetch (req : Request) : Async HttpResponse :=
  fun net =>
    ([Fetch req],
     match net req with
     | Responded r => Fulfilled r
     | Unreachable => Rejected NetworkError
     end).

(** [promise.catch(handler)] *)
Definition catch {A : Type} (m : Async A) (handler : JsError -> Async A) : Async A :=
  fun net =>
    match m net with
    | (tr, Fulfilled a) => (tr, Fulfilled a)
    | (tr, Rejected e) => let (tr', r) := handler e net in (tr ++ tr', r)
    end.

Declare Scope async_scope.
Delimit Scope async_scope with async.
Notation "x <- m ;; k" := (bind m (fun x => k))
  (at level 61, m at next level, right associativity) : async_scope.
Notation "m ;; k" := (bind m (fun _ => k))
  (at level 61, right associativity) : async_scope.
Local Open Scope async_scope.

(** ** The answer backend *)

(** The default system prompt of [queryOpenAI], as code units. *)
Definition DEFAULT_PROMPT : jsstring :=
  [22987; 32066; 20197; 27491; 39636; 20013; 25991; 20316; 31572; 12290;
   20677; 26681; 25818; 115; 116; 111; 114; 97; 103; 101; 20786; 23384;
   30340; 27284; 26696; 20839; 23481; 20358; 22238; 31572; 21839; 38988;
   12290; 23565; 26044; 20219; 20309; 33287; 12300; 30343; 26222; 33674;
   22290; 31038; 21312; 12301; 28961; 38364; 30340; 21839; 38988; 65292;
   35531; 30452; 25509; 22238; 31572; 12300; 26412; 31995; 32113; 20677;
   22238; 25033; 33287; 30343; 26222; 33674; 22290; 31038; 21312; 30456;
   38364; 30340; 21839; 38988; 12301; 12290].

(** [a || b] on strings. *)
Definition orDefault (a : option jsstring) (b : jsstring) : jsstring :=
  match a with
  | Some s => if truthy s then s else b
  | None => b
  end.

(** The request body that [queryOpenAI] builds. *)
Definition openAIBody (question : jsstring) (env : Env) : OpenAIBody :=
  let vectorStoreId := option_map trim (OPENAI_VECTOR_STORE_ID env) in
  let prompt := orDefault (option_map trim (OPENAI_PROMPT env)) DEFAULT_PROMPT in
  {| model := orDefault (Some (OPENAI_MODEL env)) (str "gpt-4.1-mini");
     systemContent := prompt;
     userContent := question;
     max_output_tokens := 400;
     file_search := if truthyOpt vectorStoreId then vectorStoreId else None |}.

Definition queryOpenAI (question : jsstring) (env : Env) : Async jsstring :=
  let body := openAIBody question env in
  response <- httpFetch (PostOpenAI (OPENAI_API_KEY env) body) ;;
  if negb (resp_ok response) then
    emit (ConsoleError "OpenAI API error"
            [LogNumber (resp_status response); LogString (resp_text response)]) ;;
    throw (OpenAIFailed (resp_status response))
  else
    match resp_json response with
    | None => throw SyntaxError
    | Some data =>
        match extractOpenAIText data with
        | None => throw OpenAIEmpty
        | Some content =>
            if negb (truthy content) then throw OpenAIEmpty
            else ret (slice content 0 (Some 1900))
        end
    end.

(** ** Reply delivery *)

Definition replyToLine (event : LineEvent) (message : jsstring) (env : Env) : Async unit :=
  let replyToken := replyToken event in
  if negb (truthyOpt replyToken) then
    emit (ConsoleWarn "No reply token to respond" [LogString (webhookEventId event)])
  else
    response <- httpFetch (PostLineReply (LINE_CHANNEL_ACCESS_TOKEN env) replyToken message) ;;
    if negb (resp_ok response) then
      emit (ConsoleError "LINE reply error"
              [LogNumber (resp_status response); LogString (resp_text response)]) ;;
      throw (LineReplyFailed (resp_status response))
    else ret tt.

(** ** The worker *)

(** What the host provides and the repository does not contain: the Unicode
    case tables, the HMAC-SHA256 primitive of [crypto.subtle], [JSON.parse],
    and the reading of a parsed array element at the type [LineEvent] (the
    cast [as LineWebhookRequest] performs no check).

    Two limits of this record. [hmacSha256] stands for an import of the key
    that succeeds: [crypto.subtle.importKey] throws on an empty key, so the
    handler is modelled for a non-empty channel secret (or a request that
    never reaches the import). [asLineEvent] reads elements that have the
    declared type; on an element that lacks [source], [text] or
    [mentionees] the code throws inside the task of that element. *)
Record Runtime := mkRuntime {
  unicodeToLower : jsstring -> jsstring;
  hmacSha256 : jsstring -> jsstring -> list Z;   (* key, data: the 32 digest bytes *)
  JSON_parse : jsstring -> option JsValue;         (* [None]: SyntaxError *)
  asLineEvent : JsValue -> LineEvent
}.

Record HttpRequest := mkRequest {
  method : jsstring;
  x_line_signature : option jsstring;
  bodyText : jsstring
}.

(** How the handler ends: with a response, or with an exception that leaves
    the handler uncaught. *)
Inductive Outcome :=
| Response (body : jsstring) (status : Z)
| Uncaught (e : JsError).

Record HandleResult := mkResult { ok : bool }.

(** A run of the handler: its outcome, its own console output, and the
    promises handed to [ctx.waitUntil], one per event, each with the effects
    it performs and the way it settles ([None] is [undefined]). *)
Record FetchRun := mkRun {
  outcome : Outcome;
  handlerLog : list Effect;
  background : list (list Effect * Settled (option HandleResult))
}.

Fixpoint mapi_from {A B : Type} (f : nat -> A -> B) (i : nat) (l : list A) : list B :=
  match l with
  | [] => []
  | x :: l' => f i x :: mapi_from f (S i) l'
  end.

Definition isAsciiUnit (c : Z) : bool := (0 <=? c) && (c <? 128).

Definition asciiLower (c : Z) : Z :=
  if (65 <=? c) && (c <=? 90) then c + 32 else c.

Section Worker.

Variable rt : Runtime.

(** [s.toLowerCase()]: on a string of ASCII characters, the letters A-Z
    are replaced; any other string is converted by the host's tables. *)
Definition toLowerCase (s : jsstring) : jsstring :=
  if forallb isAsciiUnit s then map asciiLower s else unicodeToLower rt s.

Definition isTextMessage (message : Message) : option LineTextMessage :=
  match message with
  | TextMessage m => Some m
  | OtherMessage => None
  end.

Definition isDirectChat (event : LineEvent) : bool :=
  truthyOpt (userId (source event))
  && negb (truthyOpt (groupId (source event)))
  && negb (truthyOpt (roomId (source event))).

Definition isDirectChatEnabled (env : Env) : bool :=
  let flag := ENABLE_DIRECT_CHAT_REPLY env in
  match flag with
  | None => false
  | Some flag =>
      if negb (truthy flag) then false
      else
        let normalized := toLowerCase (trim flag) in
        streq normalized (str "true") || streq normalized (str "1")
        || streq normalized (str "yes") || streq normalized (str "on")
  end.

Definition isBotMentioned (message : LineTextMessage) (botUserId : jsstring) : bool :=
  let mentionees :=
    match mention message with
    | Some mn => mentionees mn
    | None => []
    end in
  existsb
    (fun m => match mUserId m with
              | Some u => streq u botUserId
              | None => false
              end)
    mentionees.

Definition handleEvent (event : LineEvent) (env : Env) : Async HandleResult :=
  if negb (streq (eventType event) (str "message")) then ret {| ok := true |}
  else
    match isTextMessage (message event) with
    | None => ret {| ok := true |}
    | Some message =>
        let allowDirectChat := isDirectChat event && isDirectChatEnabled env in
        if negb allowDirectChat && negb (isBotMentioned message (LINE_BOT_USER_ID env))
        then ret {| ok := true |}
        else
          let question := trim (extractQuestion message) in
          if negb (truthy question) then ret {| ok := true |}
          else
            answer <- queryOpenAI question env ;;
            replyToLine event answer env ;;
            ret {| ok := true |}
    end.

Definition verifyLineSignature (body : jsstring) (signature : option jsstring)
    (channelSecret : jsstring) : bool :=
  match signature with
  | None => false
  | Some signature =>
      if negb (truthy signature) then false
      else
        let signatureBuffer := hmacSha256 rt channelSecret body in
        let computed := arrayBufferToBase64 signatureBuffer in
        timingSafeEqual computed signature
  end.

(** [handleEvent(event, env).catch((error) => { console.error(...) })] *)
Definition guardedTask (event : LineEvent) (env : Env) : Async (option HandleResult) :=
  catch (r <- handleEvent event env ;; ret (Some r))
        (fun error => emit (ConsoleError "Error handling event" [LogError error]) ;; ret None).

(** The [fetch] handler. [world i] is the network as the task of the
    [i]-th event meets it. *)
Definition fetch (request : HttpRequest) (env : Env) (world : nat -> Network) : FetchRun :=
  if negb (streq (method request) (str "POST")) then
    {| outcome := Response (str "Method Not Allowed") 405;
       handlerLog := []; background := [] |}
  else
    let signature := x_line_signature request in
    let bodyText := bodyText request in
    if negb (verifyLineSignature bodyText signature (LINE_CHANNEL_SECRET env)) then
      {| outcome := Response (str "Invalid signature") 401;
         handlerLog := []; background := [] |}
    else
      match JSON_parse rt bodyText with
      | None =>
          {| outcome := Response (str "Bad Request") 400;
             handlerLog := [ConsoleError "Failed to parse webhook payload" [LogError SyntaxError]];
             background := [] |}
      | Some payload =>
          (* [payload.events.map(...)]: reading [events] off null throws,
             and so does calling [map] on anything but an array *)
          match payload with
          | JNull => {| outcome := Uncaught TypeError; handlerLog := []; background := [] |}
          | _ =>
              match member payload (str "events") with
              | Some (JArray events) =>
                  let tasks :=
                    mapi_from
                      (fun i event => guardedTask (asLineEvent rt event) env (world i))
                      0%nat events in
                  {| outcome := Response (str "OK") 200;
                     handlerLog := []; background := tasks |}
              | _ => {| outcome := Uncaught TypeError; handlerLog := []; background := [] |}
              end
          end
      end.

End Worker.

(** ** The earlier revision of the worker

    The repository also holds an earlier revision of [index.ts]. Its
    [extractQuestion], [isBotMentioned], [verifyLineSignature] and
    [timingSafeEqual] are the ones above; the functions below differ. It has
    no direct-chat flag, its [replyToLine] does not test the reply token,
    and its handler awaits the events before it responds. *)
Module Part000.

Record Env := mkEnv {
  OPENAI_API_KEY : jsstring;
  OPENAI_MODEL : jsstring;
  OPENAI_PROMPT_ID : option jsstring;
  LINE_CHANNEL_ACCESS_TOKEN : jsstring;
  LINE_CHANNEL_SECRET : jsstring;
  LINE_BOT_USER_ID : jsstring
}.

(** The system message used when no prompt id is configured. *)
Definition SYSTEM_PROMPT : jsstring :=
  [20320; 26159; 19968; 20491; 27138; 26044; 21161; 20154; 30340; 32842;
   22825; 21161; 25163; 12290].

Definition chatBody (question : jsstring) (env : Env) : ChatBody :=
  let promptId := option_map trim (OPENAI_PROMPT_ID env) in
  {| chat_model := orDefault (Some (OPENAI_MODEL env)) (str "gpt-4o-mini");
     messages :=
       if truthyOpt promptId then [("user"%string, question)]
       else [("system"%string, SYSTEM_PROMPT); ("user"%string, question)];
     prompt_id := if truthyOpt promptId then promptId else None;
     max_tokens := 400 |}.

Definition queryOpenAI (question : jsstring) (env : Env) : Async jsstring :=
  response <- httpFetch (PostChatCompletions (OPENAI_API_KEY env) (chatBody question env)) ;;
  if negb (resp_ok response) then
    emit (ConsoleError "OpenAI API error"
            [LogNumber (resp_status response); LogString (resp_text response)]) ;;
    throw (OpenAIFailed (resp_status response))
  else
    match resp_json response with
    | None => throw SyntaxError
    | Some JNull => throw TypeError              (* [data.choices] on null *)
    | Some data =>
        (* [data.choices?.[0]?.message?.content?.trim()] *)
        match optChain
                (optChain
                   (optChain (member data (str "choices")) index0)
                   (fun c => member c (str "message")))
                (fun m => member m (str "content")) with
        | None | Some JNull => throw OpenAIEmpty
        | Some (JString s) =>
            let content := trim s in
            if negb (truthy content) then throw OpenAIEmpty
            else ret (slice content 0 (Some 1900))
        | Some _ => throw TypeError               (* no [trim] to call *)
        end
    end.

Definition replyToLine (replyToken : option jsstring) (message : jsstring) (env : Env)
    : Async unit :=
  response <- httpFetch (PostLineReply (LINE_CHANNEL_ACCESS_TOKEN env) replyToken message) ;;
  if negb (resp_ok response) then
    emit (ConsoleError "LINE reply error"
            [LogNumber (resp_status response); LogString (resp_text response)]) ;;
    throw (LineReplyFailed (resp_status response))
  else ret tt.

Definition handleEvent (event : LineEvent) (env : Env) : Async HandleResult :=
  if negb (streq (eventType event) (str "message")) then ret {| ok := true |}
  else
    match isTextMessage (message event) with
    | None => ret {| ok := true |}
    | Some message =>
        if negb (isBotMentioned message (LINE_BOT_USER_ID env)) then ret {| ok := true |}
        else
          let question := trim (extractQuestion message) in
          if negb (truthy question) then ret {| ok := true |}
          else
            answer <- queryOpenAI question env ;;
            replyToLine (replyToken event) answer env ;;
            ret {| ok := true |}
    end.

(** An element of [results]: [{ ok: true }] or [{ ok: false, error }]. *)
Inductive TaskResult :=
| Handled (r : HandleResult)
| Failed (error : JsError).

(** [handleEvent(event, env).catch((err) => ({ ok: false, error: err }))] *)
Definition task (event : LineEvent) (env : Env) : Async TaskResult :=
  catch (r <- handleEvent event env ;; ret (Handled r)) (fun err => ret (Failed err)).

(** [await Promise.all(tasks)]: the values when every task fulfils, the
    first rejection otherwise. *)
Fixpoint awaitAll {A : Type} (tasks : list (list Effect * Settled A)) : Settled (list A) :=
  match tasks with
  | [] => Fulfilled []
  | (_, Rejected e) :: _ => Rejected e
  | (_, Fulfilled a) :: rest =>
      match awaitAll rest with
      | Fulfilled l => Fulfilled (a :: l)
      | Rejected e => Rejected e
      end
  end.

Record FetchRun := mkRun {
  outcome : Outcome;
  handlerLog : list Effect;
  tasks : list (list Effect * Settled TaskResult)
}.

Section Worker.

Variable rt : Runtime.

Definition fetch (request : HttpRequest) (env : Env) (world : nat -> Network) : FetchRun :=
  if negb (streq (method request) (str "POST")) then
    {| outcome := Response (str "Method Not Allowed") 405; handlerLog := []; tasks := [] |}
  else
    let signature := x_line_signature request in
    let bodyText := bodyText request in
    if negb (verifyLineSignature rt bodyText signature (LINE_CHANNEL_SECRET env)) then
      {| outcome := Response (str "Invalid signature") 401; handlerLog := []; tasks := [] |}
    else
      match JSON_parse rt bodyText with
      | None =>
          {| outcome := Response (str "Bad Request") 400;
             handlerLog :=
               [ConsoleError "Failed to parse webhook payload" [LogError SyntaxError]];
             tasks := [] |}
      | Some JNull => {| outcome := Uncaught TypeError; handlerLog := []; tasks := [] |}
      | Some payload =>
          match member payload (str "events") with
          | Some (JArray events) =>
              let started :=
                mapi_from (fun i event => task (asLineEvent rt event) env (world i))
                          0%nat events in
              match awaitAll started with
              | Rejected e => {| outcome := Uncaught e; handlerLog := []; tasks := started |}
              | Fulfilled results =>
                  let firstError :=
                    find (fun r => match r with Handled r => negb (ok r) | Failed _ => true end)
                         results in
                  {| outcome := Response (str "OK") 200;
                     handlerLog :=
                       match firstError with
                       | Some (Failed error) =>
                           [ConsoleError "Error handling event" [LogError error]]
                       | _ => []
                       end;
                     tasks := started |}
              end
          | _ => {| outcome := Uncaught TypeError; handlerLog := []; tasks := [] |}
          end
      end.

End Worker.

End Part000.

(** ** Definitions that follow the design document's wording

    They are compared with the code in Part II. *)

(** Position [i] lies in the half-open span [index, index + length). *)
Definition inSpan (m : Mentionee) (i : Z) : bool :=
  (mIndex m <=? i) && (i <? mIndex m + mLength m).

Definition covered (ms : list Mentionee) (i : Z) : bool :=
  existsb (fun m => inSpan m i) ms.

(** The characters of [t] whose position no span covers; the first
    character of [t] has position [i]. *)
Fixpoint keepUncovered (ms : list Mentionee) (i : Z) (t : jsstring) : jsstring :=
  match t with
  | [] => []
  | c :: t' =>
      if covered ms i then keepUncovered ms (i + 1) t'
      else c :: keepUncovered ms (i + 1) t'
  end.

(** "Remove each span from the text." *)
Definition removeSpans (ms : list Mentionee) (t : jsstring) : jsstring :=
  keepUncovered ms 0 t.

(** An in-bounds span of [t]. *)
Definition inBounds (t : jsstring) (m : Mentionee) : Prop :=
  0 <= mIndex m /\ 0 <= mLength m /\ mIndex m + mLength m <= Z.of_nat (List.length t).

(** Two spans that do not overlap: one ends where or before the other starts. *)
Definition disjointSpans (a b : Mentionee) : Prop :=
  mIndex a + mLength a <= mIndex b \/ mIndex b + mLength b <= mIndex a.

Definition nonOverlapping (ms : list Mentionee) : Prop :=
  ForallOrdPairs disjointSpans ms.

(** The order in which the loop is to meet the spans: no later span has a
    larger index. *)
Definition descending : Mentionee -> Mentionee -> Prop :=
  fun a b => mIndex b <= mIndex a.



(** Section 4.3, rules 3 and 4, for an event that is a text message. *)
Definition oneToOne (src : Source) : bool :=
  truthyOpt (userId src) && negb (truthyOpt (groupId src)) && negb (truthyOpt (roomId src)).

Definition botAmongMentions (botUserId : jsstring) (m : LineTextMessage) : Prop :=
  exists mn e, mention m = Some mn /\ In e (mentionees mn) /\ mUserId e = Some botUserId.

Definition shouldRespond (directChatAllowed : bool) (botUserId : jsstring)
    (src : Source) (m : LineTextMessage) : Prop :=
  if oneToOne src && directChatAllowed then True
  else botAmongMentions botUserId m.

(** The truthy set of the direct-chat flag. *)
Definition truthyFlags : list jsstring := [str "true"; str "1"; str "yes"; str "on"].

(** The outbound requests among the effects of a run. *)
Definition requestsOf (tr : list Effect) : list Request :=
  flat_map (fun e => match e with Fetch r => [r] | _ => [] end) tr.

Definition isLineReply (r : Request) : bool :=
  match r with PostLineReply _ _ _ => true | _ => false end.

(** ** A small runtime for closed examples

    The statements of Part II hold for every [Runtime]. To run the handler
    on concrete requests, this one reads array elements that conform to the
    declared types, parses the JSON texts of a given list of values, and
    uses a stand-in digest in place of HMAC-SHA256. *)

Definition stringMember (v : JsValue) (key : string) : option jsstring :=
  match member v (str key) with
  | Some (JString s) => Some s
  | _ => None
  end.

Definition numberMember (v : JsValue) (key : string) : Z :=
  match member v (str key) with
  | Some (JNumber n) => n
  | _ => 0
  end.

Definition orEmpty (o : option jsstring) : jsstring :=
  match o with Some s => s | None => [] end.

Definition readMentionee (v : JsValue) : Mentionee :=
  {| mIndex := numberMember v "index";
     mLength := numberMember v "length";
     mUserId := stringMember v "userId" |}.

Definition readMessage (v : option JsValue) : Message :=
  match v with
  | Some (JObject ms) =>
      let o := JObject ms in
      match stringMember o "type" with
      | Some t =>
          if streq t (str "text") then
            TextMessage
              {| msgId := orEmpty (stringMember o "id");
                 text := orEmpty (stringMember o "text");
                 mention :=
                   match member o (str "mention") with
                   | Some mo =>
                       Some {| mentionees :=
                                 match member mo (str "mentionees") with
                                 | Some (JArray l) => map readMentionee l
                                 | _ => []
                                 end |}
                   | None => None
                   end |}
          else OtherMessage
      | None => OtherMessage
      end
  | _ => OtherMessage
  end.

(** The event that a conforming JSON value denotes. *)
Definition readEvent (v : JsValue) : LineEvent :=
  let src := match member v (str "source") with Some o => o | None => JNull end in
  {| eventType := orEmpty (stringMember v "type");
     replyToken := stringMember v "replyToken";
     source := {| userId := stringMember src "userId";
                  groupId := stringMember src "groupId";
                  roomId := stringMember src "roomId" |};
     webhookEventId := orEmpty (stringMember v "webhookEventId");
     message := readMessage (member v (str "message")) |}.

Definition quoted (s : jsstring) : jsstring := 34 :: s ++ [34].

Definition decimal (n : Z) : jsstring :=
  str (DecimalString.NilEmpty.string_of_int (Z.to_int n)).

(** The JSON text of a value whose strings need no escape. *)
Fixpoint stringify (v : JsValue) : jsstring :=
  match v with
  | JNull => str "null"
  | JBool true => str "true"
  | JBool false => str "false"
  | JNumber n => decimal n
  | JString s => quoted s
  | JArray items =>
      str "["
      ++ (fix elements (l : list JsValue) : jsstring :=
            match l with
            | [] => []
            | [x] => stringify x
            | x :: l' => stringify x ++ str "," ++ elements l'
            end) items
      ++ str "]"
  | JObject ms =>
      str "{"
      ++ (fix fields (l : list (jsstring * JsValue)) : jsstring :=
            match l with
            | [] => []
            | [(k, x)] => quoted k ++ str ":" ++ stringify x
            | (k, x) :: l' => quoted k ++ str ":" ++ stringify x ++ str "," ++ fields l'
            end) ms
      ++ str "}"
  end.

(** A parser that knows the JSON texts of the values in [known]. *)
Definition parseKnown (known : list JsValue) (body : jsstring) : option JsValue :=
  find (fun v => streq (stringify v) body) known.

(** A stand-in for the keyed digest: 32 equal bytes that depend on key and
    data. It has none of the properties of HMAC-SHA256, which no statement
    here relies on. *)
Definition standInDigest (key data : jsstring) : list Z :=
  repeat (fold_left Z.add (key ++ data) 0 mod 256) 32.

Definition sampleRuntime (known : list JsValue) : Runtime :=
  {| unicodeToLower := fun s => s;
     hmacSha256 := standInDigest;
     JSON_parse := parseKnown known;
     asLineEvent := readEvent |}.

(** The header value that verifies for the body text [body]: the base64
    text of the digest that [verifyLineSignature] computes. (A sender signs
    the bytes it sends; the handler signs the text it decoded from them.) *)
Definition signatureFor (rt : Runtime) (channelSecret body : jsstring) : jsstring :=
  arrayBufferToBase64 (hmacSha256 rt channelSecret body).

Definition field (k : string) (v : JsValue) : jsstring * JsValue := (str k, v).

(** A group text message [messageText] whose first [mentionLength]
    characters mention the bot ["Ubot"]. *)
Definition sampleEventJson (eventId token messageText : string) (mentionLength : Z) : JsValue :=
  JObject
    [field "type" (JString (str "message"));
     field "replyToken" (JString (str token));
     field "source" (JObject [field "type" (JString (str "group"));
                              field "groupId" (JString (str "G1"));
                              field "userId" (JString (str "U1"))]);
     field "timestamp" (JNumber 1700000000000);
     field "mode" (JString (str "active"));
     field "webhookEventId" (JString (str eventId));
     field "message"
       (JObject [field "type" (JString (str "text"));
                 field "id" (JString (str "1"));
                 field "text" (JString (str messageText));
                 field "mention"
                   (JObject [field "mentionees"
                               (JArray [JObject [field "index" (JNumber 0);
                                                 field "length" (JNumber mentionLength);
                                                 field "userId" (JString (str "Ubot"))]])])])].

Definition samplePayload : JsValue :=
  JObject [field "events"
             (JArray [sampleEventJson "E1" "T1" "@Bot one" 4;
                      sampleEventJson "E2" "T2" "@Bot two" 4;
                      sampleEventJson "E3" "T3" "@Bot three" 4])].

Definition sampleEnv : Env :=
  {| OPENAI_API_KEY := str "sk-key";
     OPENAI_MODEL := str "gpt-4.1-mini";
     OPENAI_PROMPT := None;
     OPENAI_VECTOR_STORE_ID := None;
     ENABLE_DIRECT_CHAT_REPLY := None;
     LINE_CHANNEL_ACCESS_TOKEN := str "line-token";
     LINE_CHANNEL_SECRET := str "secret";
     LINE_BOT_USER_ID := str "Ubot" |}.

Definition okResponse (data : JsValue) : HttpResponse :=
  {| resp_ok := true; resp_status := 200; resp_text := stringify data; resp_json := Some data |}.

(** A network in which the backend fails on the question "two" and echoes
    every other question, and the reply endpoint accepts every reply. *)
Definition sampleNetwork : Network :=
  fun req =>
    match req with
    | PostOpenAI _ body =>
        if streq (userContent body) (str "two") then
          Responded {| resp_ok := false; resp_status := 500;
                       resp_text := str "overloaded"; resp_json := None |}
        else
          Responded (okResponse (JObject [field "output_text"
                                            (JString (str "re: " ++ userContent body))]))
    | PostLineReply _ _ _ => Responded (okResponse (JObject []))
    | PostChatCompletions _ _ => Unreachable
    end.

Definition signedPost (rt : Runtime) (env : Env) (body : jsstring) : HttpRequest :=
  {| method := str "POST";
     x_line_signature := Some (signatureFor rt (LINE_CHANNEL_SECRET env) body);
     bodyText := body |}.

Definition sampleRt : Runtime := sampleRuntime [samplePayload; JObject []].

Definition mentionBot (i n : Z) : Mentionee :=
  {| mIndex := i; mLength := n; mUserId := Some (str "Ubot") |}.

Definition mentionOf (user : string) (i n : Z) : Mentionee :=
  {| mIndex := i; mLength := n; mUserId := Some (str user) |}.

Definition textMessage (messageText : string) (ms : option (list Mentionee)) : LineTextMessage :=
  {| msgId := str "1"; text := str messageText; mention := option_map mkMention ms |}.

Definition groupSource : Source :=
  {| userId := Some (str "U1"); groupId := Some (str "G1"); roomId := None |}.

Definition directSource : Source :=
  {| userId := Some (str "U1"); groupId := None; roomId := None |}.

Definition textEvent (src : Source) (token : option jsstring) (m : LineTextMessage) : LineEvent :=
  {| eventType := str "message"; replyToken := token; source := src;
     webhookEventId := str "E1"; message := TextMessage m |}.

(** Two mentions that both cover positions 0 to 5 of "hello world". *)
Definition overlapMessage : LineTextMessage :=
  textMessage "hello world" (Some [mentionBot 0 5; mentionBot 0 5]).

Definition withFlag (flag : option jsstring) : Env :=
  {| OPENAI_API_KEY := str "sk-key";
     OPENAI_MODEL := str "gpt-4.1-mini";
     OPENAI_PROMPT := None;
     OPENAI_VECTOR_STORE_ID := None;
     ENABLE_DIRECT_CHAT_REPLY := flag;
     LINE_CHANNEL_ACCESS_TOKEN := str "line-token";
     LINE_CHANNEL_SECRET := str "secret";
     LINE_BOT_USER_ID := str "Ubot" |}.

(** ** Notions used by the further properties of Part IV *)

(** A byte of an ArrayBuffer. *)
Definition isByte (b : Z) : bool := (0 <=? b) && (b <? 256).

Definition allBytes : list Z := map Z.of_nat (seq 0 256).

(** The characters that base64 text is made of: A-Z, a-z, 0-9, "+", "/"
    and the padding "=". *)
Definition isBase64Unit (c : Z) : bool :=
  ((65 <=? c) && (c <=? 90)) || ((97 <=? c) && (c <=? 122))
  || ((48 <=? c) && (c <=? 57)) || (c =? 43) || (c =? 47) || (c =? 61).

(** The position of a character in the base64 alphabet, and the decoding of
    padded base64 text; the code has no decoder, these serve to state that
    [arrayBufferToBase64] loses nothing. *)
Definition unbase64Char (c : Z) : Z :=
  if (65 <=? c) && (c <=? 90) then c - 65
  else if (97 <=? c) && (c <=? 122) then c - 71
  else if (48 <=? c) && (c <=? 57) then c + 4
  else if c =? 43 then 62 else 63.

Fixpoint base64Decode (s : jsstring) : list Z :=
  match s with
  | c1 :: c2 :: c3 :: c4 :: rest =>
      let s1 := unbase64Char c1 in
      let s2 := unbase64Char c2 in
      let s3 := unbase64Char c3 in
      let s4 := unbase64Char c4 in
      let a := s1 * 4 + s2 / 16 in
      let b := (s2 mod 16) * 16 + s3 / 4 in
      let c := (s3 mod 4) * 64 + s4 in
      if c3 =? 61 then [a]
      else if c4 =? 61 then [a; b]
      else a :: b :: c :: base64Decode rest
  | _ => []
  end.

(** [a] is [b] with some characters left out, the others in their order. *)
Inductive Subseq {A : Type} : list A -> list A -> Prop :=
| Subseq_nil : Subseq [] []
| Subseq_skip (x : A) (a b : list A) : Subseq a b -> Subseq a (x :: b)
| Subseq_keep (x : A) (a b : list A) : Subseq a b -> Subseq (x :: a) (x :: b).

(** A network for the earlier revision: the chat endpoint answers with one
    choice that echoes the last message, the reply endpoint accepts. *)
Definition sampleChatNetwork : Network :=
  fun req =>
    match req with
    | PostChatCompletions _ body =>
        Responded
          (okResponse
             (JObject
                [field "choices"
                   (JArray
                      [JObject
                         [field "message"
                            (JObject
                               [field "content"
                                  (JString (str " re: "
                                            ++ snd (last (messages body) (""%string, []))))])]])]))
    | PostLineReply _ _ _ => Responded (okResponse (JObject []))
    | PostOpenAI _ _ => Unreachable
    end.

Definition sampleEnv000 : Part000.Env :=
  {| Part000.OPENAI_API_KEY := str "sk-key";
     Part000.OPENAI_MODEL := [];
     Part000.OPENAI_PROMPT_ID := None;
     Part000.LINE_CHANNEL_ACCESS_TOKEN := str "line-token";
     Part000.LINE_CHANNEL_SECRET := str "secret";
     Part000.LINE_BOT_USER_ID := str "Ubot" |}.

(** A network in which every endpoint answers 503. *)
Definition failingNetwork : Network :=
  fun _ => Responded {| resp_ok := false; resp_status := 503;
                        resp_text := str "unavailable"; resp_json := None |}.

(** ** Extraction under the engine's limit on the length of a string

    [a + b] on strings throws a RangeError when the result would be longer
    than the engine allows. [extractQuestion] above is the string
    arithmetic of the function; the definitions below are the same loop with
    that failure written out, for a maximum length [maxLength].
    [handleEvent] is written over [extractQuestion]: what is stated of it
    holds for the messages on which the loop does not throw. *)








(** A network for the earlier revision in which the reply endpoint refuses
    a reply without token with status 400, as the platform does. *)
Definition strictReplyNetwork : Network :=
  fun req =>
    match req with
    | PostLineReply _ token _ =>
        if truthyOpt token then Responded (okResponse (JObject []))
        else Responded {| resp_ok := false; resp_status := 400;
                          resp_text := str "Invalid reply token"; resp_json := None |}
    | _ => sampleChatNetwork req
    end.

(* ===================================================================== *)
(** * Part II. Properties                                                 *)
(* ===================================================================== *)

(** ** Strings *)

Lemma streq_true_iff (a b : jsstring) : streq a b = true <-> a = b.
Proof.
  revert b; induction a as [|x a IH]; intros [|y b]; simpl; split; intros H;
    try reflexivity; try discriminate.
  - apply andb_true_iff in H as [Hx Hs]. apply Z.eqb_eq in Hx. apply IH in Hs. congruence.
  - injection H as -> ->. rewrite Z.eqb_refl. simpl. now apply IH.
Qed.

Lemma streq_refl (a : jsstring) : streq a a = true.
Proof. now apply streq_true_iff. Qed.

Lemma wf_string_cons (c : Z) (s : jsstring) :
  wf_string (c :: s) <-> (0 <= c < 65536) /\ wf_string s.
Proof.
  unfold wf_string; simpl. rewrite andb_true_iff. unfold isCodeUnit.
  rewrite andb_true_iff, Z.leb_le, Z.ltb_lt. tauto.
Qed.



(** ** The signature comparison *)

Lemma wrap32_small (z : Z) : 0 <= z < 65536 -> wrap32 z = z.
Proof.
  intros H. unfold wrap32.
  rewrite Z.mod_small by (change (2 ^ 31) with 2147483648; change (2 ^ 32) with 4294967296; lia).
  lia.
Qed.

Lemma lxor_unit (x y : Z) : 0 <= x < 65536 -> 0 <= y < 65536 -> 0 <= Z.lxor x y < 65536.
Proof.
  intros Hx Hy. split; [apply Z.lxor_nonneg; split; lia|].
  destruct (Z.eq_dec (Z.lxor x y) 0) as [->|Hn]; [lia|].
  assert (Hp : 0 < Z.lxor x y) by (assert (0 <= Z.lxor x y) by (apply Z.lxor_nonneg; split; lia); lia).
  change 65536 with (2 ^ 16). apply Z.log2_lt_pow2; [exact Hp|].
  eapply Z.le_lt_trans; [apply Z.log2_lxor; lia|].
  apply Z.max_lub_lt.
  - destruct (Z.eq_dec x 0) as [->|]; [reflexivity|]. apply Z.log2_lt_pow2; [lia|]. change (2 ^ 16) with 65536; lia.
  - destruct (Z.eq_dec y 0) as [->|]; [reflexivity|]. apply Z.log2_lt_pow2; [lia|]. change (2 ^ 16) with 65536; lia.
Qed.

Lemma lor_unit (x y : Z) : 0 <= x < 65536 -> 0 <= y < 65536 -> 0 <= Z.lor x y < 65536.
Proof.
  intros Hx Hy. split; [apply Z.lor_nonneg; split; lia|].
  destruct (Z.eq_dec (Z.lor x y) 0) as [->|Hn]; [lia|].
  assert (Hp : 0 < Z.lor x y) by (assert (0 <= Z.lor x y) by (apply Z.lor_nonneg; split; lia); lia).
  change 65536 with (2 ^ 16). apply Z.log2_lt_pow2; [exact Hp|].
  rewrite Z.log2_lor by lia.
  apply Z.max_lub_lt.
  - destruct (Z.eq_dec x 0) as [->|]; [reflexivity|]. apply Z.log2_lt_pow2; [lia|]. change (2 ^ 16) with 65536; lia.
  - destruct (Z.eq_dec y 0) as [->|]; [reflexivity|]. apply Z.log2_lt_pow2; [lia|]. change (2 ^ 16) with 65536; lia.
Qed.

Lemma fold_left_ext_In {A B : Type} (f g : A -> B -> A) (l : list B) (a : A) :
  (forall x y, In y l -> f x y = g x y) -> fold_left f l a = fold_left g l a.
Proof.
  revert a; induction l as [|y l IH]; intros a H; simpl; [reflexivity|].
  rewrite H by now left. apply IH. intros; apply H; now right.
Qed.

(** The index loop visits the two strings in step. *)
Lemma index_loop_combine (h : Z -> option Z -> option Z -> Z) (a b : jsstring) (k : nat) (acc : Z) :
  List.length a = List.length b ->
  fold_left (fun r i => h r (nth_error a (i - k)) (nth_error b (i - k)))
            (seq k (List.length a)) acc
  = fold_left (fun r xy => h r (Some (fst xy)) (Some (snd xy))) (combine a b) acc.
Proof.
  revert b k acc; induction a as [|x a IH]; intros [|y b] k acc Hlen;
    simpl in Hlen; try discriminate; [reflexivity|].
  injection Hlen as Hlen. simpl seq. simpl combine. simpl fold_left.
  rewrite Nat.sub_diag. simpl nth_error.
  rewrite <- (IH b (S k) _ Hlen).
  apply fold_left_ext_In. intros r i Hi. apply in_seq in Hi.
  replace (i - k)%nat with (S (i - S k)) by lia. reflexivity.
Qed.

Lemma compare_loop_zero (a b : jsstring) (acc : Z) :
  List.length a = List.length b -> wf_string a -> wf_string b -> 0 <= acc < 65536 ->
  fold_left (fun r xy => bitOr (Some r) (Some (bitXor (Some (fst xy)) (Some (snd xy)))))
            (combine a b) acc = 0
  <-> acc = 0 /\ a = b.
Proof.
  revert b acc; induction a as [|x a IH]; intros [|y b] acc Hlen Ha Hb Hacc;
    simpl in Hlen; try discriminate.
  - simpl. intuition.
  - injection Hlen as Hlen.
    apply wf_string_cons in Ha as [Hx Ha]. apply wf_string_cons in Hb as [Hy Hb].
    simpl combine. simpl fold_left. simpl fst. simpl snd.
    assert (Hxor : bitXor (Some x) (Some y) = Z.lxor x y)
      by (unfold bitXor, ToInt32; now rewrite !wrap32_small).
    assert (Hbx := lxor_unit x y Hx Hy).
    assert (Hor : bitOr (Some acc) (Some (bitXor (Some x) (Some y))) = Z.lor acc (Z.lxor x y))
      by (rewrite Hxor; unfold bitOr, ToInt32; now rewrite !wrap32_small).
    rewrite Hor. rewrite (IH b _ Hlen Ha Hb (lor_unit _ _ Hacc Hbx)).
    rewrite Z.lor_eq_0_iff, Z.lxor_eq_0_iff. split.
    + intros [[-> ->] ->]. auto.
    + intros [-> E]. injection E as -> ->. auto.
Qed.

(** C5. [timingSafeEqual a b] is true exactly when the strings [a] and [b]
    are equal: equal strings give true, strings of the same length that
    differ somewhere give false, and strings of different lengths give
    false, whatever they contain. *)
Theorem timingSafeEqual_true_iff_eq (a b : jsstring) :
  wf_string a -> wf_string b ->
  (timingSafeEqual a b = true <-> a = b)
  /\ (List.length a = List.length b -> a <> b -> timingSafeEqual a b = false)
  /\ (List.length a <> List.length b -> timingSafeEqual a b = false).
Proof.
  intros Ha Hb.
  assert (Hiff : timingSafeEqual a b = true <-> a = b).
  { unfold timingSafeEqual.
    destruct (Nat.eqb (List.length a) (List.length b)) eqn:Hlen; simpl.
    - apply Nat.eqb_eq in Hlen.
      unfold charCodeAt.
      rewrite (fold_left_ext_In _
                 (fun r i => bitOr (Some r)
                               (Some (bitXor (nth_error a (i - 0)) (nth_error b (i - 0))))))
        by (intros; now rewrite Nat.sub_0_r).
      rewrite (index_loop_combine
                 (fun r u v => bitOr (Some r) (Some (bitXor u v))) a b 0 0 Hlen).
      rewrite Z.eqb_eq, (compare_loop_zero a b 0 Hlen Ha Hb) by lia. tauto.
    - apply Nat.eqb_neq in Hlen. split; [discriminate|]. intros ->. now elim Hlen. }
  split; [exact Hiff|]. split.
  - intros _ Hne. apply not_true_is_false. intros E. apply Hne. now apply Hiff.
  - intros Hne. apply not_true_is_false. intros E. apply Hiff in E. now subst.
Qed.

(** ** The direct-chat flag *)

Lemma toLowerCase_nil (rt : Runtime) : toLowerCase rt [] = [].
Proof. reflexivity. Qed.

(** C7. The direct-chat allowance is enabled exactly when the flag is set
    and its value, trimmed and lower-cased, is one of "true", "1", "yes",
    "on"; an absent flag and the empty string give disabled. *)
Theorem isDirectChatEnabled_iff (rt : Runtime) (env : Env) :
  (isDirectChatEnabled rt env = true
   <-> exists flag, ENABLE_DIRECT_CHAT_REPLY env = Some flag
                    /\ In (toLowerCase rt (trim flag)) truthyFlags)
  /\ (ENABLE_DIRECT_CHAT_REPLY env = None -> isDirectChatEnabled rt env = false)
  /\ (ENABLE_DIRECT_CHAT_REPLY env = Some [] -> isDirectChatEnabled rt env = false).
Proof.
  unfold isDirectChatEnabled, truthyFlags.
  split; [|split; intros ->; reflexivity].
  destruct (ENABLE_DIRECT_CHAT_REPLY env) as [flag|].
  - destruct flag as [|c flag].
    + simpl. split; [discriminate|].
      intros (f & E & H). injection E as <-.
      change (trim []) with (@nil Z) in H. rewrite toLowerCase_nil in H.
      simpl in H. intuition discriminate.
    + cbn [truthy negb].
      rewrite !orb_true_iff, !streq_true_iff. split.
      * intros H. exists (c :: flag). split; [reflexivity|]. simpl. intuition.
      * intros (f & E & H). injection E as <-. simpl in H. intuition.
  - split; [discriminate|]. intros (f & E & _). discriminate.
Qed.

(** ** Eligibility *)

Lemma isBotMentioned_iff (m : LineTextMessage) (bot : jsstring) :
  isBotMentioned m bot = true <-> botAmongMentions bot m.
Proof.
  unfold isBotMentioned, botAmongMentions. destruct (mention m) as [mn|].
  - rewrite existsb_exists. split.
    + intros (e & Hin & He). destruct (mUserId e) as [u|] eqn:Eu; [|discriminate].
      apply streq_true_iff in He. subst u. now exists mn, e.
    + intros (mn' & e & E & Hin & He). injection E as <-.
      exists e. split; [exact Hin|]. rewrite He. apply streq_refl.
  - simpl. split; [discriminate|]. intros (mn & e & E & _). discriminate.
Qed.

Lemma shouldRespond_gate (rt : Runtime) (event : LineEvent) (env : Env) (m : LineTextMessage) :
  shouldRespond (isDirectChatEnabled rt env) (LINE_BOT_USER_ID env) (source event) m
  <-> negb (isDirectChat event && isDirectChatEnabled rt env)
      && negb (isBotMentioned m (LINE_BOT_USER_ID env)) = false.
Proof.
  unfold shouldRespond, isDirectChat, oneToOne.
  destruct (truthyOpt (userId (source event)) && negb (truthyOpt (groupId (source event)))
            && negb (truthyOpt (roomId (source event))) && isDirectChatEnabled rt env);
    simpl; [tauto|].
  rewrite <- isBotMentioned_iff.
  destruct (isBotMentioned m (LINE_BOT_USER_ID env)); simpl; intuition discriminate.
Qed.

(** Effects come out in program order: what a computation does first is
    what its sequel does first. *)
Lemma bind_head {A B : Type} (m : Async A) (k : A -> Async B) (net : Network)
    (e : Effect) (tr : list Effect) (r : Settled A) :
  m net = (e :: tr, r) -> exists tr' r', bind m k net = (e :: tr', r').
Proof.
  intros H. unfold bind. rewrite H. destruct r as [a|err].
  - destruct (k a net) as [tr2 r2]. now eexists _, _.
  - now eexists _, _.
Qed.

(** The first thing [queryOpenAI] does is to send its request. *)
Lemma queryOpenAI_head (question : jsstring) (env : Env) (net : Network) :
  exists tr r,
    queryOpenAI question env net
    = (Fetch (PostOpenAI (OPENAI_API_KEY env) (openAIBody question env)) :: tr, r).
Proof.
  unfold queryOpenAI. apply bind_head with (tr := []) (r :=
    match net (PostOpenAI (OPENAI_API_KEY env) (openAIBody question env)) with
    | Responded r => Fulfilled r
    | Unreachable => Rejected NetworkError
    end).
  reflexivity.
Qed.

(** C3. For an event that is a text message, [handleEvent] goes on to ask
    the backend exactly when the source is a one-to-one conversation with
    the direct-chat flag enabled, or else the bot's user id is among the
    [userId] members of the mention entries (and the question is not
    empty); when neither holds the event gets no reply: no effect at all.
    In particular a one-to-one message with the flag disabled and no
    mention of the bot gets no reply. ("Present" is JavaScript truthiness:
    a non-empty string.) *)
Theorem handleEvent_eligibility (rt : Runtime) (event : LineEvent) (env : Env)
    (m : LineTextMessage) (net : Network) :
  eventType event = str "message" ->
  message event = TextMessage m ->
  let eligible :=
    shouldRespond (isDirectChatEnabled rt env) (LINE_BOT_USER_ID env) (source event) m in
  ((exists tr r,
       handleEvent rt event env net
       = (Fetch (PostOpenAI (OPENAI_API_KEY env) (openAIBody (trim (extractQuestion m)) env)) :: tr, r))
   <-> eligible /\ trim (extractQuestion m) <> [])
  /\ (~ eligible -> handleEvent rt event env net = ([], Fulfilled {| ok := true |}))
  /\ (oneToOne (source event) = true -> isDirectChatEnabled rt env = false ->
      ~ botAmongMentions (LINE_BOT_USER_ID env) m ->
      handleEvent rt event env net = ([], Fulfilled {| ok := true |})).
Proof.
  intros Hty Hmsg eligible.
  assert (Hno : ~ eligible -> handleEvent rt event env net = ([], Fulfilled {| ok := true |})).
  { intros Hn. unfold handleEvent. rewrite Hty, streq_refl, Hmsg. simpl.
    destruct (negb (isDirectChat event && isDirectChatEnabled rt env)
              && negb (isBotMentioned m (LINE_BOT_USER_ID env))) eqn:G; [reflexivity|].
    elim Hn. now apply shouldRespond_gate. }
  split; [|split; [exact Hno|]].
  - split.
    + intros (tr & r & H).
      destruct (trim (extractQuestion m)) as [|c q] eqn:Eq.
      * exfalso. revert H. unfold handleEvent. rewrite Hty, streq_refl, Hmsg. simpl.
        destruct (negb _ && negb _); [discriminate|]. rewrite Eq. discriminate.
      * split; [|discriminate].
        apply shouldRespond_gate.
        revert H. unfold handleEvent. rewrite Hty, streq_refl, Hmsg. simpl.
        destruct (negb _ && negb _); [discriminate|reflexivity].
    + intros [He Hq]. apply shouldRespond_gate in He.
      unfold handleEvent. rewrite Hty, streq_refl, Hmsg. simpl. rewrite He.
      destruct (trim (extractQuestion m)) as [|c q] eqn:Eq; [now elim Hq|].
      cbn [truthy negb].
      destruct (queryOpenAI_head (c :: q) env net) as (tr & r & H).
      exact (bind_head _ _ _ _ _ _ H).
  - intros H1 H2 Hb. apply Hno. unfold eligible, shouldRespond.
    rewrite H1, H2. simpl. exact Hb.
Qed.

(** ** Reply delivery *)

(** X22. In [index.ts], for an event whose reply token is missing or
    empty, [replyToLine] is a no-op: it sends nothing, writes one warning
    to the console, and fulfils (no error is raised). *)
Theorem replyToLine_without_token (event : LineEvent) (message : jsstring) (env : Env)
    (net : Network) :
  replyToken event = None \/ replyToken event = Some [] ->
  replyToLine event message env net
  = ([ConsoleWarn "No reply token to respond" [LogString (webhookEventId event)]],
     Fulfilled tt)
  /\ requestsOf (fst (replyToLine event message env net)) = [].
Proof.
  intros H.
  assert (E : replyToLine event message env net
              = ([ConsoleWarn "No reply token to respond" [LogString (webhookEventId event)]],
                 Fulfilled tt))
    by (unfold replyToLine; destruct H as [-> | ->]; reflexivity).
  split; [exact E|]. rewrite E. reflexivity.
Qed.

(** ** Truncation of the answer *)

Lemma slice_prefix (s : jsstring) (n : Z) :
  0 <= n -> slice s 0 (Some n) = firstn (Z.to_nat n) s.
Proof.
  intros Hn. unfold slice, relativeIndex, substring.
  rewrite Z.ltb_irrefl.
  destruct (Z.ltb_spec n 0) as [Hlt|_]; [lia|].
  set (len := Z.of_nat (List.length s)).
  assert (Hlen : 0 <= len) by (unfold len; lia).
  rewrite (Z.min_l 0 len) by lia.
  destruct (Z.leb_spec (Z.min n len) 0) as [E0|E0].
  - assert (Hz : n = 0 \/ len = 0) by lia. destruct Hz as [->|Hz]; [reflexivity|].
    destruct s as [|c s]; [now rewrite firstn_nil|]. unfold len in Hz. simpl List.length in Hz. lia.
  - change (Z.to_nat 0) with 0%nat. rewrite skipn_O, Z.sub_0_r.
    destruct (Z.le_ge_cases n len) as [Hle|Hge].
    + now rewrite Z.min_l by lia.
    + rewrite Z.min_r by lia. unfold len. rewrite Nat2Z.id.
      rewrite firstn_all. symmetry. apply firstn_all2. unfold len in Hge. lia.
Qed.

Lemma queryOpenAI_answer (question : jsstring) (env : Env) (net : Network)
    (tr : list Effect) (answer : jsstring) :
  queryOpenAI question env net = (tr, Fulfilled answer) ->
  requestsOf tr = [PostOpenAI (OPENAI_API_KEY env) (openAIBody question env)]
  /\ exists resp data content,
       net (PostOpenAI (OPENAI_API_KEY env) (openAIBody question env)) = Responded resp
       /\ resp_json resp = Some data
       /\ extractOpenAIText data = Some content
       /\ answer = firstn 1900 content.
Proof.
  unfold queryOpenAI, bind, httpFetch.
  destruct (net _) as [resp|]; [|discriminate].
  destruct (resp_ok resp); simpl; [|discriminate].
  destruct (resp_json resp) as [data|] eqn:Ej; simpl; [|discriminate].
  destruct (extractOpenAIText data) as [content|] eqn:Ex; simpl; [|discriminate].
  destruct (truthy content); simpl; [|discriminate].
  intros H. injection H as <- <-. split; [reflexivity|].
  exists resp, data, content. repeat split; auto.
  now rewrite slice_prefix by lia.
Qed.

Lemma queryOpenAI_requests (question : jsstring) (env : Env) (net : Network) :
  requestsOf (fst (queryOpenAI question env net))
  = [PostOpenAI (OPENAI_API_KEY env) (openAIBody question env)].
Proof.
  unfold queryOpenAI, bind, httpFetch.
  destruct (net _) as [resp|]; [|reflexivity].
  destruct (resp_ok resp); simpl; [|reflexivity].
  destruct (resp_json resp) as [data|]; simpl; [|reflexivity].
  destruct (extractOpenAIText data) as [content|]; simpl; [|reflexivity].
  destruct (truthy content); reflexivity.
Qed.

Lemma replyToLine_requests (event : LineEvent) (message : jsstring) (env : Env) (net : Network)
    (bearer txt : jsstring) (token : option jsstring) :
  In (PostLineReply bearer token txt) (requestsOf (fst (replyToLine event message env net))) ->
  txt = message.
Proof.
  unfold replyToLine, bind, httpFetch, emit, throw, ret.
  destruct (negb (truthyOpt (replyToken event))); simpl; [tauto|].
  destruct (net _) as [resp|]; simpl.
  - destruct (resp_ok resp); simpl; intros [H|[]]; congruence.
  - intros [H|[]]; congruence.
Qed.

Lemma requestsOf_app (a b : list Effect) : requestsOf (a ++ b) = requestsOf a ++ requestsOf b.
Proof. unfold requestsOf. apply flat_map_app. Qed.

Lemma In_requestsOf (tr : list Effect) (r : Request) : In (Fetch r) tr <-> In r (requestsOf tr).
Proof.
  unfold requestsOf. rewrite in_flat_map. split.
  - intros H. exists (Fetch r). split; [exact H|now left].
  - intros (e & He & Hr). destruct e; simpl in Hr; try tauto.
    destruct Hr as [->|[]]. exact He.
Qed.

(** C8. Every text that [handleEvent] hands to the reply endpoint is the
    backend's answer text cut to its first 1900 code units, so it is never
    longer than 1900 (below the cap of about 2000) when it is dispatched. *)
Theorem reply_text_truncated (rt : Runtime) (event : LineEvent) (env : Env) (net : Network)
    (bearer txt : jsstring) (token : option jsstring) :
  In (Fetch (PostLineReply bearer token txt)) (fst (handleEvent rt event env net)) ->
  Z.of_nat (List.length txt) <= 1900
  /\ Z.of_nat (List.length txt) <= 2000
  /\ exists question resp data content,
       net (PostOpenAI (OPENAI_API_KEY env) (openAIBody question env)) = Responded resp
       /\ resp_json resp = Some data
       /\ extractOpenAIText data = Some content
       /\ txt = firstn 1900 content.
Proof.
  intros Hin.
  assert (Hex : exists question resp data content,
             net (PostOpenAI (OPENAI_API_KEY env) (openAIBody question env)) = Responded resp
             /\ resp_json resp = Some data
             /\ extractOpenAIText data = Some content
             /\ txt = firstn 1900 content).
  { revert Hin. unfold handleEvent.
    destruct (negb (streq (eventType event) (str "message"))); [simpl; tauto|].
    destruct (isTextMessage (message event)) as [m|]; [|simpl; tauto].
    destruct (negb _ && negb _); [simpl; tauto|].
    set (question := trim (extractQuestion m)).
    destruct (negb (truthy question)); [simpl; tauto|].
    unfold bind at 1.
    destruct (queryOpenAI question env net) as [tr1 [answer|e]] eqn:Eq.
    - destruct (queryOpenAI_answer _ _ _ _ _ Eq) as (Hreq & resp & data & content & H1 & H2 & H3 & H4).
      match goal with
      | |- context [let (_, _) := ?k net in _] => destruct (k net) as [tr2 r2] eqn:Ek
      end.
      cbn [fst]. intros Hin. apply In_requestsOf in Hin.
      rewrite requestsOf_app, Hreq in Hin. destruct Hin as [Hin|Hin]; [discriminate|].
      revert Ek. unfold bind at 1.
      destruct (replyToLine event answer env net) as [tr3 r3] eqn:Er.
      intros Ek.
      assert (Htr : requestsOf tr2 = requestsOf tr3).
      { destruct r3; simpl in Ek.
        - injection Ek as <- _. now rewrite app_nil_r.
        - now injection Ek as <- _. }
      rewrite Htr in Hin.
      assert (txt = answer).
      { apply (replyToLine_requests event answer env net bearer txt token). now rewrite Er. }
      subst txt. now exists question, resp, data, content.
    - cbn [fst]. intros Hin. apply In_requestsOf in Hin.
      generalize (queryOpenAI_requests question env net). rewrite Eq. cbn [fst].
      intros Hq. rewrite Hq in Hin. destruct Hin as [Hin|[]]. discriminate. }
  assert (Hlen : Z.of_nat (List.length txt) <= 1900).
  { destruct Hex as (_ & _ & _ & content & _ & _ & _ & ->). rewrite length_firstn. lia. }
  split; [exact Hlen|]. split; [lia|exact Hex].
Qed.

(** ** The handler *)

Lemma mapi_from_length {A B : Type} (f : nat -> A -> B) (k : nat) (l : list A) :
  List.length (mapi_from f k l) = List.length l.
Proof. revert k; induction l as [|x l IH]; intros k; simpl; [reflexivity|now rewrite IH]. Qed.

Lemma mapi_from_nth {A B : Type} (f : nat -> A -> B) (k : nat) (l : list A) (i : nat) (x : A) :
  nth_error l i = Some x -> nth_error (mapi_from f k l) i = Some (f (k + i)%nat x).
Proof.
  revert k i; induction l as [|y l IH]; intros k [|i]; simpl; try discriminate.
  - intros H; injection H as ->. now rewrite Nat.add_0_r.
  - intros H. rewrite (IH (S k) i H). f_equal. f_equal. lia.
Qed.

(** A task never rejects: it performs the event's own effects and, when the
    event's processing threw, one more console line. *)
Lemma guardedTask_run (rt : Runtime) (event : LineEvent) (env : Env) (net : Network) :
  guardedTask rt event env net
  = match snd (handleEvent rt event env net) with
    | Fulfilled r => (fst (handleEvent rt event env net), Fulfilled (Some r))
    | Rejected e =>
        (fst (handleEvent rt event env net)
           ++ [ConsoleError "Error handling event" [LogError e]],
         Fulfilled None)
    end.
Proof.
  unfold guardedTask, catch, bind at 1.
  destruct (handleEvent rt event env net) as [tr [r|e]]; simpl.
  - now rewrite app_nil_r.
  - reflexivity.
Qed.

Lemma fetch_accepts_batch (rt : Runtime) (request : HttpRequest) (env : Env)
    (world : nat -> Network) (payload : JsValue) (events : list JsValue) :
  method request = str "POST" ->
  verifyLineSignature rt (bodyText request) (x_line_signature request)
    (LINE_CHANNEL_SECRET env) = true ->
  JSON_parse rt (bodyText request) = Some payload ->
  member payload (str "events") = Some (JArray events) ->
  fetch rt request env world
  = {| outcome := Response (str "OK") 200;
       handlerLog := [];
       background :=
         mapi_from (fun i event => guardedTask rt (asLineEvent rt event) env (world i))
                   0%nat events |}.
Proof.
  intros Hm Hv Hp He. unfold fetch. rewrite Hm, streq_refl, Hv, Hp. cbn [negb].
  destruct payload; try discriminate He. now rewrite He.
Qed.

(** C6. Whatever happens inside the processing of the events of a batch,
    the handler answers 200 "OK". Every event of the batch is processed:
    its task performs exactly the effects that [handleEvent] performs on
    that event alone; a failure of its backend or reply call (or any other
    rejection) is caught and logged, and the task fulfils. *)
Theorem fetch_contains_event_failures (rt : Runtime) (request : HttpRequest) (env : Env)
    (world : nat -> Network) (payload : JsValue) (events : list JsValue) :
  method request = str "POST" ->
  verifyLineSignature rt (bodyText request) (x_line_signature request)
    (LINE_CHANNEL_SECRET env) = true ->
  JSON_parse rt (bodyText request) = Some payload ->
  member payload (str "events") = Some (JArray events) ->
  let run := fetch rt request env world in
  outcome run = Response (str "OK") 200
  /\ List.length (background run) = List.length events
  /\ (forall i ev,
        nth_error events i = Some ev ->
        let own := handleEvent rt (asLineEvent rt ev) env (world i) in
        nth_error (background run) i
        = Some (match snd own with
                | Fulfilled r => (fst own, Fulfilled (Some r))
                | Rejected e =>
                    (fst own ++ [ConsoleError "Error handling event" [LogError e]],
                     Fulfilled None)
                end))
  /\ (forall task, In task (background run) -> exists v, snd task = Fulfilled v).
Proof.
  intros Hm Hv Hp He run.
  assert (Hrun : run = _) by exact (fetch_accepts_batch rt request env world payload events Hm Hv Hp He).
  rewrite Hrun. cbn [outcome background].
  split; [reflexivity|]. split; [apply mapi_from_length|]. split.
  - intros i ev Hi. cbv zeta.
    rewrite (mapi_from_nth _ 0%nat events i ev Hi). rewrite Nat.add_0_l.
    now rewrite guardedTask_run.
  - intros task Hin. apply In_nth_error in Hin as [i Hi].
    assert (Hlt : (i < List.length events)%nat).
    { rewrite <- (mapi_from_length
                    (fun i event => guardedTask rt (asLineEvent rt event) env (world i))
                    0%nat events).
      apply nth_error_Some. congruence. }
    destruct (nth_error events i) as [ev|] eqn:Ev;
      [|apply nth_error_None in Ev; lia].
    rewrite (mapi_from_nth _ 0%nat events i ev Ev) in Hi. injection Hi as <-.
    rewrite guardedTask_run.
    destruct (handleEvent rt (asLineEvent rt ev) env (world i)) as [tr [r|e]];
      eexists; reflexivity.
Qed.

(** C2, as the code has it. A body that passes signature verification and
    is not parseable as JSON is answered with 400 "Bad Request"; the parse
    error is logged and no event is processed. *)
Theorem fetch_unparseable_body_400 (rt : Runtime) (request : HttpRequest) (env : Env)
    (world : nat -> Network) :
  method request = str "POST" ->
  verifyLineSignature rt (bodyText request) (x_line_signature request)
    (LINE_CHANNEL_SECRET env) = true ->
  JSON_parse rt (bodyText request) = None ->
  fetch rt request env world
  = {| outcome := Response (str "Bad Request") 400;
       handlerLog := [ConsoleError "Failed to parse webhook payload" [LogError SyntaxError]];
       background := [] |}.
Proof.
  intros Hm Hv Hp. unfold fetch. now rewrite Hm, streq_refl, Hv, Hp.
Qed.

(** A body that is valid JSON but carries no [events] array leaves the
    handler with an uncaught TypeError, in every runtime. *)
Lemma fetch_without_events_array (rt : Runtime) (request : HttpRequest) (env : Env)
    (world : nat -> Network) (payload : JsValue) :
  method request = str "POST" ->
  verifyLineSignature rt (bodyText request) (x_line_signature request)
    (LINE_CHANNEL_SECRET env) = true ->
  JSON_parse rt (bodyText request) = Some payload ->
  (forall events, member payload (str "events") <> Some (JArray events)) ->
  fetch rt request env world
  = {| outcome := Uncaught TypeError; handlerLog := []; background := [] |}.
Proof.
  intros Hm Hv Hp He. unfold fetch. rewrite Hm, streq_refl, Hv, Hp. cbn [negb].
  destruct payload; try reflexivity;
    destruct (member _ (str "events")) as [[| | | |evs|]|] eqn:E; try reflexivity;
    now elim (He evs).
Qed.

(** C2, as stated, fails: the body [{}] is a JSON object without [events];
    correctly signed, it is not answered with 400 (nor with any response). *)
Lemma fetch_missing_events_not_400 :
  let rt := sampleRuntime [JObject []] in
  let request := signedPost rt sampleEnv (str "{}") in
  method request = str "POST"
  /\ verifyLineSignature rt (bodyText request) (x_line_signature request)
       (LINE_CHANNEL_SECRET sampleEnv) = true
  /\ JSON_parse rt (bodyText request) = Some (JObject [])
  /\ member (JObject []) (str "events") = None
  /\ outcome (fetch rt request sampleEnv (fun _ => sampleNetwork)) = Uncaught TypeError
  /\ ~ (exists body, outcome (fetch rt request sampleEnv (fun _ => sampleNetwork))
                     = Response body 400).
Proof.
  cbv zeta.
  assert (E : outcome (fetch (sampleRuntime [JObject []])
                         (signedPost (sampleRuntime [JObject []]) sampleEnv (str "{}"))
                         sampleEnv (fun _ => sampleNetwork)) = Uncaught TypeError)
    by (vm_compute; reflexivity).
  split; [reflexivity|]. split; [vm_compute; reflexivity|].
  split; [vm_compute; reflexivity|]. split; [reflexivity|].
  split; [exact E|].
  intros [body H]. rewrite E in H. discriminate.
Qed.

(** ** Sorting the mention entries *)

Lemma insertDesc_perm (m : Mentionee) (l : list Mentionee) :
  Permutation (insertDesc m l) (m :: l).
Proof.
  induction l as [|x l IH]; simpl; [reflexivity|].
  destruct (mIndex x - mIndex m <=? 0); [reflexivity|].
  rewrite IH. apply perm_swap.
Qed.

Lemma sortDesc_perm (l : list Mentionee) : Permutation (sortDesc l) l.
Proof.
  induction l as [|m l IH]; simpl; [reflexivity|].
  rewrite insertDesc_perm. now constructor.
Qed.

Lemma insertDesc_sorted (m : Mentionee) (l : list Mentionee) :
  StronglySorted descending l -> StronglySorted descending (insertDesc m l).
Proof.
  induction l as [|x l IH]; intros Hs; simpl.
  - repeat constructor.
  - inversion Hs as [|? ? Hl Hx]; subst.
    destruct (Z.leb_spec (mIndex x - mIndex m) 0) as [Hle|Hgt].
    + constructor; [exact Hs|]. constructor; [unfold descending; lia|].
      eapply Forall_impl; [|exact Hx]. unfold descending. intros; lia.
    + constructor; [now apply IH|].
      eapply Permutation_Forall; [symmetry; apply insertDesc_perm|].
      constructor; [unfold descending; lia|exact Hx].
Qed.

Lemma sortDesc_sorted (l : list Mentionee) : StronglySorted descending (sortDesc l).
Proof.
  induction l as [|m l IH]; simpl; [constructor|now apply insertDesc_sorted].
Qed.


Lemma disjointSpans_sym (a b : Mentionee) : disjointSpans a b -> disjointSpans b a.
Proof. unfold disjointSpans; tauto. Qed.

Lemma nonOverlapping_cons (m : Mentionee) (l : list Mentionee) :
  nonOverlapping (m :: l) <-> Forall (disjointSpans m) l /\ nonOverlapping l.
Proof.
  unfold nonOverlapping. split.
  - intros H; inversion H; auto.
  - intros [? ?]; now constructor.
Qed.

Lemma nonOverlapping_perm (l l' : list Mentionee) :
  Permutation l l' -> nonOverlapping l -> nonOverlapping l'.
Proof.
  induction 1 as [|x l l' Hp IH|x y l|l l' l'' _ IH1 _ IH2]; intros H.
  - exact H.
  - apply nonOverlapping_cons in H as [Hx Hl]. apply nonOverlapping_cons. split.
    + eapply Permutation_Forall; eauto.
    + auto.
  - apply nonOverlapping_cons in H as [Hy H].
    apply nonOverlapping_cons in H as [Hx Hl].
    inversion Hy as [|? ? Hyx Hyl]; subst.
    apply nonOverlapping_cons. split.
    + constructor; [now apply disjointSpans_sym|exact Hx].
    + apply nonOverlapping_cons. auto.
  - auto.
Qed.

(** ** Removing spans *)

Lemma covered_perm (l l' : list Mentionee) (i : Z) :
  Permutation l l' -> covered l i = covered l' i.
Proof.
  unfold covered. induction 1 as [|x l l' _ IH|x y l|l l' l'' _ IH1 _ IH2]; simpl.
  - reflexivity.
  - now rewrite IH.
  - now rewrite !orb_assoc, (orb_comm (inSpan y i)).
  - congruence.
Qed.

Lemma keepUncovered_ext (l l' : list Mentionee) (t : jsstring) (i : Z) :
  (forall j, i <= j < i + Z.of_nat (List.length t) -> covered l j = covered l' j) ->
  keepUncovered l i t = keepUncovered l' i t.
Proof.
  revert i; induction t as [|c t IH]; intros i H; simpl; [reflexivity|].
  simpl List.length in H.
  rewrite (H i) by lia. rewrite (IH (i + 1)) by (intros; apply H; lia). reflexivity.
Qed.

Lemma keepUncovered_app (l : list Mentionee) (a b : jsstring) (i : Z) :
  keepUncovered l i (a ++ b)
  = keepUncovered l i a ++ keepUncovered l (i + Z.of_nat (List.length a)) b.
Proof.
  revert i; induction a as [|c a IH]; intros i.
  - simpl. now rewrite Z.add_0_r.
  - cbn [app keepUncovered List.length]. rewrite IH.
    rewrite Nat2Z.inj_succ.
    replace (i + Z.succ (Z.of_nat (List.length a))) with (i + 1 + Z.of_nat (List.length a))
      by (unfold Z.succ; ring).
    now destruct (covered l i).
Qed.

Lemma keepUncovered_none (l : list Mentionee) (t : jsstring) (i : Z) :
  (forall j, i <= j < i + Z.of_nat (List.length t) -> covered l j = false) ->
  keepUncovered l i t = t.
Proof.
  revert i; induction t as [|c t IH]; intros i H; simpl; [reflexivity|].
  simpl List.length in H.
  rewrite (H i) by lia. rewrite (IH (i + 1)) by (intros; apply H; lia). reflexivity.
Qed.

Lemma keepUncovered_all (l : list Mentionee) (t : jsstring) (i : Z) :
  (forall j, i <= j < i + Z.of_nat (List.length t) -> covered l j = true) ->
  keepUncovered l i t = [].
Proof.
  revert i; induction t as [|c t IH]; intros i H; simpl; [reflexivity|].
  simpl List.length in H.
  rewrite (H i) by lia. apply IH. intros; apply H; lia.
Qed.

Lemma slice_suffix (s : jsstring) (k : Z) :
  0 <= k <= Z.of_nat (List.length s) -> slice s k None = skipn (Z.to_nat k) s.
Proof.
  intros Hk. unfold slice, relativeIndex, substring.
  set (len := Z.of_nat (List.length s)) in *.
  destruct (Z.ltb_spec k 0) as [Hlt|_]; [lia|].
  rewrite Z.min_l by lia.
  destruct (Z.leb_spec len k) as [Hle|Hgt].
  - symmetry. apply skipn_all2. unfold len in Hle. lia.
  - apply firstn_all2. rewrite length_skipn. unfold len. lia.
Qed.

(** On an in-bounds span the loop body cuts out exactly the span. *)
Lemma removeSpan_inBounds (t : jsstring) (m : Mentionee) :
  inBounds t m ->
  removeSpan t m
  = firstn (Z.to_nat (mIndex m)) t ++ skipn (Z.to_nat (mIndex m + mLength m)) t.
Proof.
  intros (Hi & Hn & He). unfold removeSpan.
  rewrite slice_prefix by lia. rewrite slice_suffix by lia. reflexivity.
Qed.

Lemma split_at_span (t : jsstring) (i n : nat) :
  t = firstn i t ++ firstn n (skipn i t) ++ skipn (i + n) t.
Proof.
  rewrite <- (firstn_skipn i t) at 1. f_equal.
  rewrite <- (firstn_skipn n (skipn i t)) at 1. f_equal.
  rewrite skipn_skipn. f_equal. lia.
Qed.

Lemma inSpan_true_iff (m : Mentionee) (j : Z) :
  inSpan m j = true <-> mIndex m <= j < mIndex m + mLength m.
Proof. unfold inSpan. rewrite andb_true_iff, Z.leb_le, Z.ltb_lt. tauto. Qed.

Lemma inSpan_false_iff (m : Mentionee) (j : Z) :
  inSpan m j = false <-> j < mIndex m \/ mIndex m + mLength m <= j.
Proof.
  unfold inSpan. rewrite andb_false_iff, Z.leb_gt, Z.ltb_ge. tauto.
Qed.

Lemma covered_false_iff (l : list Mentionee) (j : Z) :
  covered l j = false <-> Forall (fun m => inSpan m j = false) l.
Proof.
  unfold covered. induction l as [|m l IH]; simpl.
  - split; [constructor|reflexivity].
  - rewrite orb_false_iff, IH. split.
    + intros [? ?]; now constructor.
    + intros H; inversion H; auto.
Qed.

(** Removing the spans highest index first leaves the characters that no
    span covers. *)
Lemma fold_removeSpan_sorted (l : list Mentionee) (t : jsstring) :
  StronglySorted descending l ->
  Forall (inBounds t) l ->
  nonOverlapping l ->
  fold_left removeSpan l t = removeSpans l t.
Proof.
  unfold removeSpans.
  revert t; induction l as [|m l IH]; intros t Hs Hb Hn.
  - simpl. symmetry. now apply keepUncovered_none.
  - inversion Hs as [|? ? Hsl Hm]; subst.
    inversion Hb as [|? ? Hbm Hbl]; subst.
    apply nonOverlapping_cons in Hn as [Hdm Hnl].
    simpl fold_left.
    destruct Hbm as (Hi & Hlen & He).
    destruct (Z.eq_dec (mLength m) 0) as [Hz|Hnz].
    + (* an empty span removes nothing and covers nothing *)
      assert (Ht : removeSpan t m = t).
      { rewrite removeSpan_inBounds by (repeat split; lia).
        rewrite Hz, Z.add_0_r. apply firstn_skipn. }
      rewrite Ht, (IH t Hsl Hbl Hnl).
      apply keepUncovered_ext. intros j _. unfold covered. simpl.
      replace (inSpan m j) with false; [reflexivity|].
      symmetry. apply inSpan_false_iff. lia.
    + (* every later span ends where or before this one starts *)
      assert (Hend : Forall (fun r => mIndex r + mLength r <= mIndex m) l).
      { rewrite Forall_forall in *. intros r Hr.
        specialize (Hm r Hr). specialize (Hdm r Hr). specialize (Hbl r Hr).
        unfold descending in Hm. unfold disjointSpans in Hdm.
        destruct Hbl as (? & ? & ?). lia. }
      set (i := Z.to_nat (mIndex m)).
      set (n := Z.to_nat (mLength m)).
      assert (Hrm : removeSpan t m = firstn i t ++ skipn (i + n) t).
      { rewrite removeSpan_inBounds by (repeat split; lia).
        unfold i, n. now rewrite Z2Nat.inj_add by lia. }
      assert (Hli : List.length (firstn i t) = i)
        by (rewrite length_firstn; unfold i; lia).
      assert (Hln : List.length (firstn n (skipn i t)) = n)
        by (rewrite length_firstn, length_skipn; unfold i, n; lia).
      assert (Hafter : forall j, mIndex m <= j -> covered l j = false).
      { intros j Hj. apply covered_false_iff.
        eapply Forall_impl; [|exact Hend]. intros r Hr. cbv beta in Hr.
        apply inSpan_false_iff. lia. }
      rewrite Hrm. rewrite IH; [|exact Hsl| |exact Hnl].
      * rewrite keepUncovered_app, Hli.
        rewrite (keepUncovered_none l (skipn (i + n) t))
          by (intros j Hj; apply Hafter; unfold i in Hj; lia).
        rewrite (split_at_span t i n) at 3.
        rewrite !keepUncovered_app, Hli, Hln.
        rewrite (keepUncovered_all (m :: l) (firstn n (skipn i t))).
        2:{ intros j Hj. rewrite Hln in Hj. unfold covered. simpl.
            replace (inSpan m j) with true; [reflexivity|].
            symmetry. apply inSpan_true_iff. unfold i, n in Hj. lia. }
        rewrite (keepUncovered_none (m :: l) (skipn (i + n) t)).
        2:{ intros j Hj. unfold covered. simpl.
            replace (inSpan m j) with false.
            - apply Hafter. unfold i, n in Hj. lia.
            - symmetry. apply inSpan_false_iff. unfold i, n in Hj. lia. }
        simpl app. f_equal.
        apply keepUncovered_ext. intros j Hj. rewrite Hli in Hj.
        unfold covered. simpl. replace (inSpan m j) with false; [reflexivity|].
        symmetry. apply inSpan_false_iff. unfold i in Hj. lia.
      * rewrite Forall_forall in *. intros r Hr.
        specialize (Hend r Hr). specialize (Hbl r Hr).
        destruct Hbl as (? & ? & ?). repeat split; try lia.
        rewrite length_app, Hli. unfold i. lia.
Qed.

Lemma removeSpans_perm (l l' : list Mentionee) (t : jsstring) :
  Permutation l l' -> removeSpans l t = removeSpans l' t.
Proof.
  intros Hp. apply keepUncovered_ext. intros j _. now apply covered_perm.
Qed.

Lemma extractQuestion_removeSpans (id t : jsstring) (ms : list Mentionee) :
  Forall (inBounds t) ms ->
  nonOverlapping ms ->
  extractQuestion {| msgId := id; text := t; mention := Some {| mentionees := ms |} |}
  = trim (removeSpans ms t).
Proof.
  intros Hb Hn. unfold extractQuestion. simpl. f_equal.
  rewrite fold_removeSpan_sorted.
  - apply removeSpans_perm, sortDesc_perm.
  - apply sortDesc_sorted.
  - eapply Permutation_Forall; [symmetry; apply sortDesc_perm|exact Hb].
  - eapply nonOverlapping_perm; [symmetry; apply sortDesc_perm|exact Hn].
Qed.

(** C4. For a text message whose mention spans lie within the text and do
    not overlap one another, the spans are taken in descending order of
    index and the text returned is the text without the characters of the
    spans, trimmed; the result does not depend on the order in which the
    mention entries arrive. *)
Theorem extractQuestion_nonoverlapping (id t : jsstring) (ms : list Mentionee) :
  Forall (inBounds t) ms ->
  nonOverlapping ms ->
  let msg := {| msgId := id; text := t; mention := Some {| mentionees := ms |} |} in
  (Permutation (sortDesc ms) ms /\ StronglySorted descending (sortDesc ms))
  /\ fold_left removeSpan (sortDesc ms) t = removeSpans ms t
  /\ extractQuestion msg = trim (removeSpans ms t)
  /\ (forall ms', Permutation ms ms' ->
        extractQuestion {| msgId := id; text := t; mention := Some {| mentionees := ms' |} |}
        = extractQuestion msg).
Proof.
  intros Hb Hn msg.
  split; [split; [apply sortDesc_perm|apply sortDesc_sorted]|].
  split.
  { rewrite fold_removeSpan_sorted.
    - apply removeSpans_perm, sortDesc_perm.
    - apply sortDesc_sorted.
    - eapply Permutation_Forall; [symmetry; apply sortDesc_perm|exact Hb].
    - eapply nonOverlapping_perm; [symmetry; apply sortDesc_perm|exact Hn]. }
  split; [now apply extractQuestion_removeSpans|].
  intros ms' Hp. unfold msg.
  rewrite !extractQuestion_removeSpans; auto.
  - f_equal. symmetry. now apply removeSpans_perm.
  - eapply Permutation_Forall; eauto.
  - eapply nonOverlapping_perm; eauto.
Qed.

(** ** Slicing never leaves the string *)

Lemma relativeIndex_bounds (len k : Z) :
  0 <= len -> 0 <= relativeIndex len k <= len.
Proof. intros H. unfold relativeIndex. destruct (Z.ltb_spec k 0); lia. Qed.







Lemma dropWhile_suffix {A : Type} (p : A -> bool) (l : list A) :
  exists pre, l = pre ++ dropWhile p l.
Proof.
  induction l as [|x l [pre IH]]; simpl.
  - now exists [].
  - destruct (p x).
    + exists (x :: pre). simpl. now f_equal.
    + now exists [].
Qed.




(** ** Trimming twice *)

Lemma dropWhile_head {A : Type} (p : A -> bool) (l : list A) (x : A) (r : list A) :
  dropWhile p l = x :: r -> p x = false.
Proof.
  induction l as [|y l IH]; simpl; [discriminate|].
  destruct (p y) eqn:E; [exact IH|]. intros H; injection H as -> _. exact E.
Qed.

Lemma dropWhile_idem {A : Type} (p : A -> bool) (l : list A) :
  dropWhile p (dropWhile p l) = dropWhile p l.
Proof.
  destruct (dropWhile p l) as [|x r] eqn:E; [reflexivity|].
  simpl. now rewrite (dropWhile_head p l x r E).
Qed.

Lemma trimEnd_prefix (s : jsstring) : exists sfx, s = trimEnd s ++ sfx.
Proof.
  unfold trimEnd. destruct (dropWhile_suffix isWhiteSpace (rev s)) as [pre E].
  exists (rev pre). rewrite <- rev_app_distr, <- E. now rewrite rev_involutive.
Qed.

Lemma trim_idem (s : jsstring) : trim (trim s) = trim s.
Proof.
  unfold trim.
  assert (Hs : trimStart (trimEnd (trimStart s)) = trimEnd (trimStart s)).
  { destruct (trimEnd_prefix (trimStart s)) as [sfx E].
    destruct (trimEnd (trimStart s)) as [|c v] eqn:Ev; [reflexivity|].
    unfold trimStart at 1. simpl.
    unfold trimStart in E. simpl in E.
    now rewrite (dropWhile_head isWhiteSpace s c (v ++ sfx) E). }
  rewrite Hs. unfold trimEnd at 1 2. rewrite rev_involutive. now rewrite dropWhile_idem.
Qed.

(** ** Overlapping spans *)

Lemma handleEvent_text (rt : Runtime) (event : LineEvent) (env : Env) (m : LineTextMessage)
    (net : Network) :
  eventType event = str "message" ->
  message event = TextMessage m ->
  shouldRespond (isDirectChatEnabled rt env) (LINE_BOT_USER_ID env) (source event) m ->
  handleEvent rt event env net
  = match trim (extractQuestion m) with
    | [] => ([], Fulfilled {| ok := true |})
    | c :: q =>
        bind (queryOpenAI (c :: q) env)
             (fun answer => bind (replyToLine event answer env) (fun _ => ret {| ok := true |}))
             net
    end.
Proof.
  intros Hty Hmsg He. apply shouldRespond_gate in He.
  unfold handleEvent. rewrite Hty, streq_refl, Hmsg. simpl. rewrite He.
  now destruct (trim (extractQuestion m)).
Qed.

(** ** The earlier revision *)

Lemma part000_task_fulfils (event : LineEvent) (env : Part000.Env) (net : Network) :
  exists v, snd (Part000.task event env net) = Fulfilled v.
Proof.
  unfold Part000.task, catch, bind at 1.
  destruct (Part000.handleEvent event env net) as [tr [r|e]]; simpl; eexists; reflexivity.
Qed.

Lemma part000_awaitAll_fulfils {A : Type} (tasks : list (list Effect * Settled A)) :
  (forall t, In t tasks -> exists v, snd t = Fulfilled v) ->
  exists values, Part000.awaitAll tasks = Fulfilled values.
Proof.
  induction tasks as [|[tr r] tasks IH]; intros H; simpl.
  - now eexists.
  - destruct (H (tr, r) (or_introl eq_refl)) as [v Hv]. simpl in Hv. subst r.
    destruct IH as [values ->]; [intros t Ht; apply H; now right|]. now eexists.
Qed.

Lemma In_mapi_from {A B : Type} (f : nat -> A -> B) (k : nat) (l : list A) (y : B) :
  In y (mapi_from f k l) -> exists i x, In x l /\ y = f i x.
Proof.
  revert k; induction l as [|x l IH]; intros k; simpl; [tauto|].
  intros [<-|H].
  - exists k, x. auto.
  - destruct (IH _ H) as (i & x' & Hx & ->). exists i, x'. auto.
Qed.

(** In the earlier revision too, a failure inside the processing of an
    event is caught and the handler answers 200 "OK"; one task is run for
    each event of the batch. *)
Lemma part000_fetch_answers_200 (rt : Runtime) (request : HttpRequest) (env : Part000.Env)
    (world : nat -> Network) (payload : JsValue) (events : list JsValue) :
  method request = str "POST" ->
  verifyLineSignature rt (bodyText request) (x_line_signature request)
    (Part000.LINE_CHANNEL_SECRET env) = true ->
  JSON_parse rt (bodyText request) = Some payload ->
  member payload (str "events") = Some (JArray events) ->
  Part000.outcome (Part000.fetch rt request env world) = Response (str "OK") 200
  /\ Part000.tasks (Part000.fetch rt request env world)
     = mapi_from (fun i event => Part000.task (asLineEvent rt event) env (world i)) 0%nat events.
Proof.
  intros Hm Hv Hp He. unfold Part000.fetch. rewrite Hm, streq_refl, Hv, Hp. cbn [negb].
  destruct payload; try discriminate He; rewrite He;
    (destruct (part000_awaitAll_fulfils
                 (mapi_from (fun i event => Part000.task (asLineEvent rt event) env (world i))
                            0%nat events)) as [values ->];
     [intros t Ht; apply In_mapi_from in Ht as (i & x & _ & ->); apply part000_task_fulfils
     |split; reflexivity]).
Qed.

(** The earlier revision sends the reply whatever the reply token is, also
    when it is missing or empty. *)
Lemma part000_replyToLine_sends_without_token (replyToken : option jsstring)
    (message : jsstring) (env : Part000.Env) (net : Network) :
  exists tr r,
    Part000.replyToLine replyToken message env net
    = (Fetch (PostLineReply (Part000.LINE_CHANNEL_ACCESS_TOKEN env) replyToken message) :: tr, r).
Proof.
  unfold Part000.replyToLine. eapply bind_head with (tr := []). reflexivity.
Qed.

(** The earlier revision cuts the answer at 1900 code units as well. *)
Lemma part000_queryOpenAI_truncates (question : jsstring) (env : Part000.Env) (net : Network)
    (tr : list Effect) (answer : jsstring) :
  Part000.queryOpenAI question env net = (tr, Fulfilled answer) ->
  Z.of_nat (List.length answer) <= 1900.
Proof.
  unfold Part000.queryOpenAI, bind, httpFetch.
  destruct (net _) as [resp|]; [|discriminate].
  destruct (resp_ok resp); simpl; [|discriminate].
  destruct (resp_json resp) as [data|]; simpl; [|discriminate].
  destruct data; try discriminate;
    match goal with
    | |- context [match ?c with _ => _ end] => destruct c as [[| | |s| |]|]; try discriminate
    end;
    (destruct (truthy (trim s)); simpl; [|discriminate];
     intros H; injection H as _ <-;
     rewrite slice_prefix by lia; rewrite length_firstn; lia).
Qed.

(** The earlier revision has no direct-chat rule: a text message is
    answered only when the bot is mentioned. *)
Lemma part000_unmentioned_no_reply (event : LineEvent) (env : Part000.Env)
    (m : LineTextMessage) (net : Network) :
  message event = TextMessage m ->
  ~ botAmongMentions (Part000.LINE_BOT_USER_ID env) m ->
  Part000.handleEvent event env net = ([], Fulfilled {| ok := true |}).
Proof.
  intros Hmsg Hb. unfold Part000.handleEvent.
  destruct (negb (streq (eventType event) (str "message"))); [reflexivity|].
  rewrite Hmsg. simpl.
  destruct (isBotMentioned m (Part000.LINE_BOT_USER_ID env)) eqn:E; [|reflexivity].
  elim Hb. now apply isBotMentioned_iff.
Qed.

(* ===================================================================== *)
(** * Part III. The statements at concrete inputs                         *)
(* ===================================================================== *)


Lemma fetch_unparseable_body_400_witness :
  let request := signedPost sampleRt sampleEnv (str "{") in
  JSON_parse sampleRt (bodyText request) = None
  /\ outcome (fetch sampleRt request sampleEnv (fun _ => sampleNetwork))
     = Response (str "Bad Request") 400.
Proof.
  cbv zeta. split; [vm_compute; reflexivity|].
  rewrite (fetch_unparseable_body_400 sampleRt (signedPost sampleRt sampleEnv (str "{"))
             sampleEnv (fun _ => sampleNetwork)).
  - reflexivity.
  - reflexivity.
  - vm_compute; reflexivity.
  - vm_compute; reflexivity.
Defined.

Lemma handleEvent_eligibility_witness :
  let m := textMessage "hello" None in
  let event := textEvent directSource (Some (str "T1")) m in
  oneToOne (source event) = true
  /\ isDirectChatEnabled sampleRt sampleEnv = false
  /\ handleEvent sampleRt event sampleEnv sampleNetwork = ([], Fulfilled {| ok := true |}).
Proof.
  cbv zeta. split; [reflexivity|]. split; [reflexivity|].
  apply (handleEvent_eligibility sampleRt
           (textEvent directSource (Some (str "T1")) (textMessage "hello" None))
           sampleEnv (textMessage "hello" None) sampleNetwork).
  - reflexivity.
  - reflexivity.
  - reflexivity.
  - reflexivity.
  - intros (mn & e & E & _). discriminate E.
Defined.

Lemma extractQuestion_nonoverlapping_witness :
  let t := str "@A @B question" in
  let ms := [mentionOf "UA" 0 2; mentionOf "UB" 3 2] in
  Forall (inBounds t) ms /\ nonOverlapping ms
  /\ extractQuestion (textMessage "@A @B question" (Some ms)) = trim (removeSpans ms t)
  /\ extractQuestion (textMessage "@A @B question" (Some (rev ms)))
     = extractQuestion (textMessage "@A @B question" (Some ms)).
Proof.
  cbv zeta.
  assert (Hb : Forall (inBounds (str "@A @B question"))
                 [mentionOf "UA" 0 2; mentionOf "UB" 3 2])
    by (repeat constructor; simpl; lia).
  assert (Hn : nonOverlapping [mentionOf "UA" 0 2; mentionOf "UB" 3 2])
    by (apply nonOverlapping_cons; split;
        [constructor; [left; simpl; lia|constructor]|repeat constructor]).
  split; [exact Hb|]. split; [exact Hn|].
  destruct (extractQuestion_nonoverlapping (str "1") (str "@A @B question")
              [mentionOf "UA" 0 2; mentionOf "UB" 3 2] Hb Hn) as (_ & _ & H3 & H4).
  split; [exact H3|].
  apply (H4 (rev [mentionOf "UA" 0 2; mentionOf "UB" 3 2])). apply Permutation_rev.
Defined.

Lemma timingSafeEqual_true_iff_eq_witness :
  (timingSafeEqual (str "QUJD") (str "QUJD") = true <-> str "QUJD" = str "QUJD")
  /\ (List.length (str "QUJD") = List.length (str "QUJE") -> str "QUJD" <> str "QUJE" ->
      timingSafeEqual (str "QUJD") (str "QUJE") = false)
  /\ (List.length (str "QUJD") <> List.length (str "QUJ") ->
      timingSafeEqual (str "QUJD") (str "QUJ") = false).
Proof.
  split; [|split].
  - apply (timingSafeEqual_true_iff_eq (str "QUJD") (str "QUJD")); reflexivity.
  - apply (timingSafeEqual_true_iff_eq (str "QUJD") (str "QUJE")); reflexivity.
  - apply (timingSafeEqual_true_iff_eq (str "QUJD") (str "QUJ")); reflexivity.
Defined.

Lemma fetch_contains_event_failures_witness :
  let request := signedPost sampleRt sampleEnv (stringify samplePayload) in
  let run := fetch sampleRt request sampleEnv (fun _ => sampleNetwork) in
  verifyLineSignature sampleRt (bodyText request) (x_line_signature request)
    (LINE_CHANNEL_SECRET sampleEnv) = true
  /\ JSON_parse sampleRt (bodyText request) = Some samplePayload
  /\ outcome run = Response (str "OK") 200
  /\ List.length (background run) = 3%nat
  /\ (forall task, In task (background run) -> exists v, snd task = Fulfilled v).
Proof.
  cbv zeta.
  assert (Hv : verifyLineSignature sampleRt
                 (bodyText (signedPost sampleRt sampleEnv (stringify samplePayload)))
                 (x_line_signature (signedPost sampleRt sampleEnv (stringify samplePayload)))
                 (LINE_CHANNEL_SECRET sampleEnv) = true) by (vm_compute; reflexivity).
  assert (Hp : JSON_parse sampleRt
                 (bodyText (signedPost sampleRt sampleEnv (stringify samplePayload)))
               = Some samplePayload) by (vm_compute; reflexivity).
  split; [exact Hv|]. split; [exact Hp|].
  destruct (fetch_contains_event_failures sampleRt
              (signedPost sampleRt sampleEnv (stringify samplePayload)) sampleEnv
              (fun _ => sampleNetwork) samplePayload
              [sampleEventJson "E1" "T1" "@Bot one" 4;
               sampleEventJson "E2" "T2" "@Bot two" 4;
               sampleEventJson "E3" "T3" "@Bot three" 4]
              eq_refl Hv Hp eq_refl) as (H1 & H2 & _ & H4).
  split; [exact H1|]. split; [exact H2|exact H4].
Defined.

Lemma reply_text_truncated_witness :
  let event := textEvent groupSource (Some (str "T1"))
                 (textMessage "@Bot one" (Some [mentionBot 0 4])) in
  In (Fetch (PostLineReply (str "line-token") (Some (str "T1")) (str "re: one")))
     (fst (handleEvent sampleRt event sampleEnv sampleNetwork))
  /\ Z.of_nat (List.length (str "re: one")) <= 1900.
Proof.
  cbv zeta.
  assert (Hin : In (Fetch (PostLineReply (str "line-token") (Some (str "T1")) (str "re: one")))
                  (fst (handleEvent sampleRt
                          (textEvent groupSource (Some (str "T1"))
                             (textMessage "@Bot one" (Some [mentionBot 0 4])))
                          sampleEnv sampleNetwork)))
    by (vm_compute; right; left; reflexivity).
  split; [exact Hin|].
  apply (reply_text_truncated sampleRt _ sampleEnv sampleNetwork _ _ _ Hin).
Defined.

Lemma replyToLine_without_token_witness :
  let event := textEvent groupSource (Some []) (textMessage "@Bot one" (Some [mentionBot 0 4])) in
  replyToLine event (str "answer") sampleEnv sampleNetwork
  = ([ConsoleWarn "No reply token to respond" [LogString (str "E1")]], Fulfilled tt).
Proof.
  cbv zeta.
  apply (replyToLine_without_token
           (textEvent groupSource (Some []) (textMessage "@Bot one" (Some [mentionBot 0 4])))
           (str "answer") sampleEnv sampleNetwork).
  right. reflexivity.
Defined.

Lemma isDirectChatEnabled_iff_witness :
  isDirectChatEnabled sampleRt (withFlag (Some (str " On "))) = true
  /\ isDirectChatEnabled sampleRt (withFlag None) = false
  /\ isDirectChatEnabled sampleRt (withFlag (Some [])) = false.
Proof.
  split; [|split].
  - apply (isDirectChatEnabled_iff sampleRt (withFlag (Some (str " On ")))).
    exists (str " On "). split; [reflexivity|]. vm_compute. tauto.
  - exact (proj1 (proj2 (isDirectChatEnabled_iff sampleRt (withFlag None))) eq_refl).
  - exact (proj2 (proj2 (isDirectChatEnabled_iff sampleRt (withFlag (Some [])))) eq_refl).
Defined.

(** ** The examples of section 8 of the design document *)

Example base64_of_bytes :
  arrayBufferToBase64 [65; 66; 67] = str "QUJD"
  /\ arrayBufferToBase64 [65; 66] = str "QUI="
  /\ arrayBufferToBase64 [255] = str "/w=="
  /\ arrayBufferToBase64 [251; 239; 190] = str "++++".
Proof. repeat split. Qed.

Example extract_bot_hello :
  extractQuestion (textMessage "@Bot hello" (Some [mentionBot 0 4])) = str "hello".
Proof. reflexivity. Qed.

Example extract_two_mentions_either_order :
  extractQuestion (textMessage "@A @B question" (Some [mentionOf "UA" 0 2; mentionOf "UB" 3 2]))
  = str "question"
  /\ extractQuestion (textMessage "@A @B question" (Some [mentionOf "UB" 3 2; mentionOf "UA" 0 2]))
     = str "question".
Proof. split; reflexivity. Qed.

Example extract_mention_only_is_empty :
  extractQuestion (textMessage "@Bot" (Some [mentionBot 0 4])) = [].
Proof. reflexivity. Qed.

Example extract_negative_length_duplicates :
  extractQuestion (textMessage "abcdef" (Some [mentionOf "UA" 4 (-2)])) = str "abcdcdef".
Proof. reflexivity. Qed.

Example flag_values :
  map (fun v => isDirectChatEnabled sampleRt (withFlag v))
      [Some (str "TRUE"); Some (str " 1 "); Some (str "yes"); Some (str "On");
       Some (str "nope"); Some []; None]
  = [true; true; true; true; false; false; false].
Proof. reflexivity. Qed.

Example group_mention_decides :
  fst (handleEvent sampleRt
         (textEvent groupSource (Some (str "T1")) (textMessage "@Bot one" (Some [mentionBot 0 4])))
         sampleEnv sampleNetwork) <> []
  /\ handleEvent sampleRt
       (textEvent groupSource (Some (str "T1")) (textMessage "@Bot one" (Some [])))
       sampleEnv sampleNetwork = ([], Fulfilled {| ok := true |}).
Proof. split; [vm_compute; discriminate|reflexivity]. Qed.

(** A batch of three events in which the backend fails on the second: the
    first and the third are answered, the failure is logged, the response
    is 200. *)
Example batch_of_three :
  let run := fetch sampleRt (signedPost sampleRt sampleEnv (stringify samplePayload))
               sampleEnv (fun _ => sampleNetwork) in
  outcome run = Response (str "OK") 200
  /\ map (fun task => filter isLineReply (requestsOf (fst task))) (background run)
     = [[PostLineReply (str "line-token") (Some (str "T1")) (str "re: one")];
        [];
        [PostLineReply (str "line-token") (Some (str "T3")) (str "re: three")]]
  /\ map snd (background run)
     = [Fulfilled (Some {| ok := true |}); Fulfilled None; Fulfilled (Some {| ok := true |})]
  /\ In (ConsoleError "Error handling event" [LogError (OpenAIFailed 500)])
        (fst (nth 1 (background run) ([], Fulfilled None))).
Proof.
  cbv zeta. split; [vm_compute; reflexivity|]. split; [vm_compute; reflexivity|].
  split; [vm_compute; reflexivity|]. vm_compute. tauto.
Qed.

(* ===================================================================== *)
(** * Part IV. Further properties of the code                             *)
(* ===================================================================== *)

(** ** Base64 encoding of the digest *)

Lemma list_ind3 {A : Type} (P : list A -> Prop) :
  P [] -> (forall a, P [a]) -> (forall a b, P [a; b]) ->
  (forall a b c l, P l -> P (a :: b :: c :: l)) ->
  forall l, P l.
Proof.
  intros H0 H1 H2 H3. fix IH 1. intros [|a [|b [|c l]]].
  - exact H0.
  - apply H1.
  - apply H2.
  - apply H3. apply IH.
Qed.

Lemma in_allBytes (a : Z) : 0 <= a < 256 -> In a allBytes.
Proof.
  intros H. unfold allBytes. apply in_map_iff. exists (Z.to_nat a). split; [lia|].
  apply in_seq. lia.
Qed.

Lemma isByte_range (a : Z) : isByte a = true <-> 0 <= a < 256.
Proof. unfold isByte. rewrite andb_true_iff, Z.leb_le, Z.ltb_lt. tauto. Qed.

Lemma check_bytes1 (f : Z -> bool) :
  forallb f allBytes = true -> forall a, isByte a = true -> f a = true.
Proof.
  intros H a Ha. rewrite forallb_forall in H. apply H, in_allBytes. now apply isByte_range.
Qed.

Lemma check_bytes2 (f : Z -> Z -> bool) :
  forallb (fun a => forallb (f a) allBytes) allBytes = true ->
  forall a b, isByte a = true -> isByte b = true -> f a b = true.
Proof.
  intros H a b Ha Hb.
  apply (check_bytes1 (f a)); [|exact Hb].
  apply (check_bytes1 (fun a => forallb (f a) allBytes) H a Ha).
Qed.

Lemma snoc_loop (buffer acc : list Z) :
  fold_left (fun binary byte => binary ++ [byte]) buffer acc = acc ++ buffer.
Proof.
  revert acc; induction buffer as [|b buffer IH]; intros acc; simpl.
  - now rewrite app_nil_r.
  - rewrite IH, <- app_assoc. reflexivity.
Qed.

Lemma arrayBufferToBase64_btoa (buffer : list Z) : arrayBufferToBase64 buffer = btoa buffer.
Proof. unfold arrayBufferToBase64. now rewrite snoc_loop. Qed.

(** The four characters of a full group, checked on all bytes. *)
Lemma group_first (a b : Z) :
  isByte a = true -> isByte b = true ->
  let s1 := Z.shiftr a 2 in
  let s2 := Z.lor (Z.shiftl (Z.land a 3) 4) (Z.shiftr b 4) in
  unbase64Char (base64Char s1) * 4 + unbase64Char (base64Char s2) / 16 = a
  /\ unbase64Char (base64Char s2) mod 16 = Z.shiftr b 4
  /\ isBase64Unit (base64Char s1) = true /\ isBase64Unit (base64Char s2) = true.
Proof.
  intros Ha Hb.
  pose (f := fun a b =>
    let s1 := Z.shiftr a 2 in
    let s2 := Z.lor (Z.shiftl (Z.land a 3) 4) (Z.shiftr b 4) in
    (unbase64Char (base64Char s1) * 4 + unbase64Char (base64Char s2) / 16 =? a)
    && (unbase64Char (base64Char s2) mod 16 =? Z.shiftr b 4)
    && isBase64Unit (base64Char s1) && isBase64Unit (base64Char s2)).
  assert (H : f a b = true) by (apply check_bytes2; [vm_compute; reflexivity|exact Ha|exact Hb]).
  unfold f in H. cbv zeta in *.
  rewrite !andb_true_iff, !Z.eqb_eq in H. tauto.
Qed.

Lemma group_third (b c : Z) :
  isByte b = true -> isByte c = true ->
  let s3 := Z.lor (Z.shiftl (Z.land b 15) 2) (Z.shiftr c 6) in
  let s4 := Z.land c 63 in
  Z.shiftr b 4 * 16 + unbase64Char (base64Char s3) / 4 = b
  /\ (unbase64Char (base64Char s3) mod 4) * 64 + unbase64Char (base64Char s4) = c
  /\ base64Char s3 <> 61 /\ base64Char s4 <> 61
  /\ isBase64Unit (base64Char s3) = true /\ isBase64Unit (base64Char s4) = true.
Proof.
  intros Hb Hc.
  pose (f := fun b c =>
    let s3 := Z.lor (Z.shiftl (Z.land b 15) 2) (Z.shiftr c 6) in
    let s4 := Z.land c 63 in
    (Z.shiftr b 4 * 16 + unbase64Char (base64Char s3) / 4 =? b)
    && ((unbase64Char (base64Char s3) mod 4) * 64 + unbase64Char (base64Char s4) =? c)
    && negb (base64Char s3 =? 61) && negb (base64Char s4 =? 61)
    && isBase64Unit (base64Char s3) && isBase64Unit (base64Char s4)).
  assert (H : f b c = true) by (apply check_bytes2; [vm_compute; reflexivity|exact Hb|exact Hc]).
  unfold f in H. cbv zeta in *.
  rewrite !andb_true_iff, !negb_true_iff, !Z.eqb_eq, !Z.eqb_neq in H. tauto.
Qed.

(** The padded groups that end the text, checked on all bytes. *)
Lemma group_padded (a b : Z) :
  isByte a = true -> isByte b = true ->
  base64Decode (btoa [a]) = [a] /\ base64Decode (btoa [a; b]) = [a; b]
  /\ forallb isBase64Unit (btoa [a]) = true /\ forallb isBase64Unit (btoa [a; b]) = true.
Proof.
  intros Ha Hb.
  pose (eqb := fix eqb (x y : list Z) : bool :=
          match x, y with
          | [], [] => true
          | u :: x', v :: y' => (u =? v) && eqb x' y'
          | _, _ => false
          end).
  assert (Heq : forall x y, eqb x y = true -> x = y).
  { induction x as [|u x IH]; intros [|v y]; simpl; try discriminate; [reflexivity|].
    rewrite andb_true_iff, Z.eqb_eq. intros [-> H]. f_equal. now apply IH. }
  pose (f := fun a b =>
    eqb (base64Decode (btoa [a])) [a] && eqb (base64Decode (btoa [a; b])) [a; b]
    && forallb isBase64Unit (btoa [a]) && forallb isBase64Unit (btoa [a; b])).
  assert (H : f a b = true) by (apply check_bytes2; [vm_compute; reflexivity|exact Ha|exact Hb]).
  unfold f in H. rewrite !andb_true_iff in H.
  destruct H as [[[H1 H2] H3] H4]. auto.
Qed.

Lemma base64Decode_btoa (buffer : list Z) :
  forallb isByte buffer = true -> base64Decode (btoa buffer) = buffer.
Proof.
  induction buffer as [|a|a b|a b c rest IH] using list_ind3; intros Hb.
  - reflexivity.
  - simpl in Hb. rewrite andb_true_r in Hb. now apply (group_padded a a).
  - simpl in Hb. rewrite andb_true_r in Hb. apply andb_true_iff in Hb as [Ha Hb].
    now apply (group_padded a b).
  - cbn [forallb] in Hb. rewrite !andb_true_iff in Hb. destruct Hb as (Ha & Hb & Hc & Hrest).
    destruct (group_first a b Ha Hb) as (E1 & E2 & _ & _).
    destruct (group_third b c Hb Hc) as (E3 & E4 & N3 & N4 & _ & _).
    cbv zeta in *. cbn [btoa base64Decode].
    apply Z.eqb_neq in N3, N4. rewrite N3, N4.
    rewrite E1, E2, E3, E4, (IH Hrest). reflexivity.
Qed.

(** X1. The base64 text of a buffer of bytes determines the buffer:
    decoding it gives the bytes back, so two different digests never give
    the same signature text. *)
Theorem arrayBufferToBase64_injective (a b : list Z) :
  forallb isByte a = true -> forallb isByte b = true ->
  base64Decode (arrayBufferToBase64 a) = a
  /\ (arrayBufferToBase64 a = arrayBufferToBase64 b -> a = b).
Proof.
  intros Ha Hb. rewrite !arrayBufferToBase64_btoa.
  split; [now apply base64Decode_btoa|].
  intros E. rewrite <- (base64Decode_btoa a Ha), <- (base64Decode_btoa b Hb). now rewrite E.
Qed.

Lemma btoa_units (buffer : list Z) :
  forallb isByte buffer = true -> forallb isBase64Unit (btoa buffer) = true.
Proof.
  induction buffer as [|a|a b|a b c rest IH] using list_ind3; intros Hb.
  - reflexivity.
  - simpl in Hb. rewrite andb_true_r in Hb. now apply (group_padded a a).
  - simpl in Hb. rewrite andb_true_r in Hb. apply andb_true_iff in Hb as [Ha Hb].
    now apply (group_padded a b).
  - cbn [forallb] in Hb. rewrite !andb_true_iff in Hb. destruct Hb as (Ha & Hb & Hc & Hrest).
    destruct (group_first a b Ha Hb) as (_ & _ & U1 & U2).
    destruct (group_third b c Hb Hc) as (_ & _ & _ & _ & U3 & U4).
    cbv zeta in *. cbn [btoa forallb]. now rewrite U1, U2, U3, U4, (IH Hrest).
Qed.

Lemma btoa_length (buffer : list Z) :
  List.length (btoa buffer) = (4 * ((List.length buffer + 2) / 3))%nat.
Proof.
  induction buffer as [|a|a b|a b c rest IH] using list_ind3; try reflexivity.
  cbn [btoa List.length]. rewrite IH.
  replace (S (S (S (List.length rest))) + 2)%nat with (1 * 3 + (List.length rest + 2))%nat by lia.
  rewrite Nat.div_add_l by lia. lia.
Qed.

Lemma base64Unit_codeUnit (c : Z) : isBase64Unit c = true -> isCodeUnit c = true.
Proof.
  unfold isBase64Unit, isCodeUnit.
  rewrite !orb_true_iff, !andb_true_iff, !Z.leb_le, !Z.eqb_eq, Z.ltb_lt. lia.
Qed.

Lemma arrayBufferToBase64_wf (buffer : list Z) :
  forallb isByte buffer = true -> wf_string (arrayBufferToBase64 buffer).
Proof.
  intros Hb. rewrite arrayBufferToBase64_btoa.
  assert (Hu := btoa_units buffer Hb).
  unfold wf_string. rewrite forallb_forall in *. intros c Hc.
  now apply base64Unit_codeUnit, Hu.
Qed.

(** X2. The base64 text of a buffer of [n] bytes has [4 * ceil(n / 3)]
    characters, all of them letters, digits, "+", "/" or the padding "=";
    the 32 bytes of an HMAC-SHA256 digest give 44 characters. *)
Theorem arrayBufferToBase64_shape (buffer : list Z) :
  forallb isByte buffer = true ->
  List.length (arrayBufferToBase64 buffer) = (4 * ((List.length buffer + 2) / 3))%nat
  /\ forallb isBase64Unit (arrayBufferToBase64 buffer) = true
  /\ wf_string (arrayBufferToBase64 buffer)
  /\ (List.length buffer = 32%nat -> List.length (arrayBufferToBase64 buffer) = 44%nat).
Proof.
  intros Hb. rewrite arrayBufferToBase64_btoa.
  assert (Hu := btoa_units buffer Hb).
  split; [apply btoa_length|]. split; [exact Hu|]. split.
  - unfold wf_string. rewrite forallb_forall in *. intros c Hc.
    now apply base64Unit_codeUnit, Hu.
  - intros H32. rewrite btoa_length, H32. reflexivity.
Qed.

(** ** Signature verification *)

Lemma timingSafeEqual_eq (a b : jsstring) :
  wf_string a -> wf_string b -> (timingSafeEqual a b = true <-> a = b).
Proof.
  intros Ha Hb. unfold timingSafeEqual.
  destruct (Nat.eqb (List.length a) (List.length b)) eqn:Hlen; simpl.
  - apply Nat.eqb_eq in Hlen.
    unfold charCodeAt.
    rewrite (fold_left_ext_In _
               (fun r i => bitOr (Some r)
                             (Some (bitXor (nth_error a (i - 0)) (nth_error b (i - 0))))))
      by (intros; now rewrite Nat.sub_0_r).
    rewrite (index_loop_combine
               (fun r u v => bitOr (Some r) (Some (bitXor u v))) a b 0 0 Hlen).
    rewrite Z.eqb_eq, (compare_loop_zero a b 0 Hlen Ha Hb) by lia. tauto.
  - apply Nat.eqb_neq in Hlen. split; [discriminate|]. intros ->. now elim Hlen.
Qed.

(** X3. A signature header is accepted exactly when it is the base64 text
    of the keyed digest of the body (and that text is not empty); an absent
    or empty header is rejected without the digest being compared. *)
Theorem verifyLineSignature_iff (rt : Runtime) (body channelSecret : jsstring)
    (signature : option jsstring) :
  forallb isByte (hmacSha256 rt channelSecret body) = true ->
  (forall s, signature = Some s -> wf_string s) ->
  (verifyLineSignature rt body signature channelSecret = true
   <-> exists s, signature = Some s /\ s <> []
                 /\ s = arrayBufferToBase64 (hmacSha256 rt channelSecret body))
  /\ (signature = None \/ signature = Some [] ->
      verifyLineSignature rt body signature channelSecret = false).
Proof.
  intros Hb Hwf.
  assert (Hc := arrayBufferToBase64_wf _ Hb).
  unfold verifyLineSignature. split.
  - destruct signature as [[|c s]|]; simpl.
    + split; [discriminate|]. intros (s & E & Hn & _). injection E as <-. now elim Hn.
    + rewrite (timingSafeEqual_eq _ _ Hc (Hwf _ eq_refl)). split.
      * intros E. exists (c :: s). split; [reflexivity|]. split; [discriminate|now symmetry].
      * intros (s' & E & _ & ->). now injection E as <-.
    + split; [discriminate|]. intros (s & E & _). discriminate.
  - intros [-> | ->]; reflexivity.
Qed.

(** ** The text taken from the backend's response *)

Lemma nonBlankString_some (v : option JsValue) (t : jsstring) :
  nonBlankString v = Some t ->
  t <> [] /\ trim t = t /\ exists s, v = Some (JString s) /\ t = trim s.
Proof.
  unfold nonBlankString. destruct v as [[| | |s| |]|]; try discriminate.
  destruct (trim s) as [|c r] eqn:E; [discriminate|]. cbn [truthy].
  intros H; injection H as <-. split; [discriminate|]. split.
  - rewrite <- E. apply trim_idem.
  - exists s. auto.
Qed.

Lemma firstSome_some {A B : Type} (f : A -> option B) (l : list A) (b : B) :
  firstSome f l = Some b -> exists x, In x l /\ f x = Some b.
Proof.
  induction l as [|x l IH]; simpl; [discriminate|].
  destruct (f x) as [b'|] eqn:E.
  - intros H; injection H as <-. exists x. auto.
  - intros H. destruct (IH H) as (y & Hy & Hf). exists y. auto.
Qed.

Lemma extractOpenAIText_text (data : JsValue) (t : jsstring) :
  extractOpenAIText data = Some t ->
  t <> [] /\ trim t = t /\ exists s, t = trim s.
Proof.
  intros H.
  assert (Hnb : forall v, nonBlankString v = Some t -> t <> [] /\ trim t = t /\ exists s, t = trim s).
  { intros v Hv. destruct (nonBlankString_some v t Hv) as (H1 & H2 & s & _ & H3). eauto. }
  unfold extractOpenAIText in H.
  assert (Hbody :
    match nonBlankString (member data (str "output_text")) with
    | Some t0 => Some t0
    | None =>
        match
          match member data (str "output") with
          | Some (JArray output) =>
              firstSome
                (fun item =>
                   match item with
                   | JArray _ | JObject _ =>
                       match member item (str "content") with
                       | Some (JArray content) =>
                           firstSome
                             (fun c => match c with
                                       | JObject _ => nonBlankString (member c (str "text"))
                                       | _ => None
                                       end) content
                       | _ => None
                       end
                   | _ => None
                   end) output
          | _ => None
          end
        with
        | Some t0 => Some t0
        | None =>
            nonBlankString
              (optChain
                 (optChain (optChain (member data (str "choices")) index0)
                    (fun c => member c (str "message")))
                 (fun m => member m (str "content")))
        end
    end = Some t) by (destruct data; try discriminate H; exact H).
  clear H. revert Hbody.
  destruct (nonBlankString (member data (str "output_text"))) as [t0|] eqn:E0.
  { intros H; injection H as ->. eapply Hnb; eauto. }
  destruct (member data (str "output")) as [[| | | |output|]|];
    try (intros H; eapply Hnb; exact H).
  destruct (firstSome _ output) as [t1|] eqn:E1; [|intros H; eapply Hnb; exact H].
  intros H; injection H as ->.
  apply firstSome_some in E1 as (item & _ & Hitem).
  assert (Hc : match member item (str "content") with
               | Some (JArray content) =>
                   firstSome
                     (fun c => match c with
                               | JObject _ => nonBlankString (member c (str "text"))
                               | _ => None
                               end) content
               | _ => None
               end = Some t) by (destruct item; try discriminate Hitem; exact Hitem).
  destruct (member item (str "content")) as [[| | | |content|]|]; try discriminate Hc.
  apply firstSome_some in Hc as (c & _ & Hc).
  destruct c; try discriminate Hc. eapply Hnb; exact Hc.
Qed.

(** ** The backend call *)

Lemma bind_run {A B : Type} (m : Async A) (k : A -> Async B) (net : Network) :
  bind m k net
  = match m net with
    | (tr, Fulfilled a) => (tr ++ fst (k a net), snd (k a net))
    | (tr, Rejected e) => (tr, Rejected e)
    end.
Proof.
  unfold bind. destruct (m net) as [tr [a|e]]; [|reflexivity]. now destruct (k a net).
Qed.

Lemma firstn_nonempty {A : Type} (n : nat) (l : list A) :
  (0 < n)%nat -> l <> [] -> firstn n l <> [].
Proof. destruct n; [lia|]. destruct l; [tauto|discriminate]. Qed.

Lemma queryOpenAI_success_run (question : jsstring) (env : Env) (net : Network)
    (resp : HttpResponse) (data : JsValue) (content : jsstring) :
  net (PostOpenAI (OPENAI_API_KEY env) (openAIBody question env)) = Responded resp ->
  resp_ok resp = true -> resp_json resp = Some data ->
  extractOpenAIText data = Some content ->
  queryOpenAI question env net
  = ([Fetch (PostOpenAI (OPENAI_API_KEY env) (openAIBody question env))],
     Fulfilled (firstn 1900 content)).
Proof.
  intros Hn Hok Hj Hx.
  destruct (extractOpenAIText_text data content Hx) as (Hne & _).
  unfold queryOpenAI, bind, httpFetch. rewrite Hn, Hok. simpl.
  rewrite Hj. simpl. rewrite Hx. simpl.
  destruct content as [|c content]; [now elim Hne|]. simpl.
  now rewrite slice_prefix by lia.
Qed.

(** X6. [queryOpenAI] fulfils exactly when the backend answers with a
    success status and a JSON body from which a text can be taken; the
    answer is then the first 1900 code units of that text and is never
    empty, and the only effect is the one request. *)
Theorem queryOpenAI_fulfils_iff (question : jsstring) (env : Env) (net : Network)
    (answer : jsstring) :
  let req := PostOpenAI (OPENAI_API_KEY env) (openAIBody question env) in
  (queryOpenAI question env net = ([Fetch req], Fulfilled answer)
   <-> exists resp data content,
         net req = Responded resp /\ resp_ok resp = true
         /\ resp_json resp = Some data
         /\ extractOpenAIText data = Some content
         /\ answer = firstn 1900 content)
  /\ (snd (queryOpenAI question env net) = Fulfilled answer ->
      fst (queryOpenAI question env net) = [Fetch req]
      /\ answer <> [] /\ Z.of_nat (List.length answer) <= 1900).
Proof.
  intros req.
  assert (Hfwd : forall tr, queryOpenAI question env net = (tr, Fulfilled answer) ->
            tr = [Fetch req]
            /\ exists resp data content,
                 net req = Responded resp /\ resp_ok resp = true
                 /\ resp_json resp = Some data
                 /\ extractOpenAIText data = Some content
                 /\ answer = firstn 1900 content).
  { intros tr. unfold queryOpenAI, bind, httpFetch. fold req.
    destruct (net req) as [resp|]; [|discriminate].
    destruct (resp_ok resp) eqn:Eok; simpl; [|discriminate].
    destruct (resp_json resp) as [data|] eqn:Ej; simpl; [|discriminate].
    destruct (extractOpenAIText data) as [content|] eqn:Ex; simpl; [|discriminate].
    destruct (truthy content); simpl; [|discriminate].
    intros H. injection H as <- <-. split; [reflexivity|].
    exists resp, data, content. repeat split; auto. now rewrite slice_prefix by lia. }
  split; [split|].
  - intros H. now apply (Hfwd _ H).
  - intros (resp & data & content & Hn & Hok & Hj & Hx & ->).
    now apply (queryOpenAI_success_run question env net resp data content).
  - intros Hs. destruct (queryOpenAI question env net) as [tr r] eqn:E.
    simpl in Hs. subst r.
    destruct (Hfwd tr eq_refl) as (-> & resp & data & content & _ & _ & _ & Hx & ->).
    destruct (extractOpenAIText_text data content Hx) as (Hne & _).
    split; [reflexivity|]. split.
    + apply firstn_nonempty; [lia|exact Hne].
    + rewrite length_firstn. lia.
Qed.

(** X7. When [queryOpenAI] rejects, it has still sent exactly the one
    request, and the error tells why: the backend was unreachable, or it
    answered with a failure status (which is logged with the body), or its
    body was not JSON, or no text could be taken from it. *)
Theorem queryOpenAI_rejections (question : jsstring) (env : Env) (net : Network)
    (tr : list Effect) (e : JsError) :
  let req := PostOpenAI (OPENAI_API_KEY env) (openAIBody question env) in
  queryOpenAI question env net = (tr, Rejected e) ->
  (net req = Unreachable /\ e = NetworkError /\ tr = [Fetch req])
  \/ (exists resp,
        net req = Responded resp
        /\ ((resp_ok resp = false /\ e = OpenAIFailed (resp_status resp)
             /\ tr = [Fetch req;
                      ConsoleError "OpenAI API error"
                        [LogNumber (resp_status resp); LogString (resp_text resp)]])
            \/ (resp_ok resp = true /\ resp_json resp = None
                /\ e = SyntaxError /\ tr = [Fetch req])
            \/ (resp_ok resp = true
                /\ (exists data, resp_json resp = Some data /\ extractOpenAIText data = None)
                /\ e = OpenAIEmpty /\ tr = [Fetch req]))).
Proof.
  intros req. unfold queryOpenAI, bind, httpFetch. fold req.
  destruct (net req) as [resp|].
  - intros H. right. exists resp. split; [reflexivity|]. revert H.
    destruct (resp_ok resp) eqn:Eok; simpl.
    + destruct (resp_json resp) as [data|] eqn:Ej; simpl.
      * destruct (extractOpenAIText data) as [content|] eqn:Ex; simpl.
        -- destruct (extractOpenAIText_text data content Ex) as (Hne & _).
           destruct content as [|c content]; [now elim Hne|]. simpl. discriminate.
        -- intros H. injection H as <- <-. right. right.
           split; [reflexivity|]. split; [now exists data|]. auto.
      * intros H. injection H as <- <-. right. left. auto.
    + intros H. injection H as <- <-. left. auto.
  - intros H. injection H as <- <-. left. auto.
Qed.

(** X8. The request body that [queryOpenAI] builds always names a model
    and carries a system prompt, the configured ones unless they are empty
    (blank, for the prompt); the question goes in unchanged; the file-search
    tool is attached exactly when a vector store id with a non-blank value
    is configured, and then with that value trimmed. *)
Theorem openAIBody_wellformed (question : jsstring) (env : Env) :
  let body := openAIBody question env in
  model body <> [] /\ systemContent body <> []
  /\ userContent body = question /\ max_output_tokens body = 400
  /\ (OPENAI_MODEL env <> [] -> model body = OPENAI_MODEL env)
  /\ (OPENAI_MODEL env = [] -> model body = str "gpt-4.1-mini")
  /\ (forall p, OPENAI_PROMPT env = Some p -> trim p <> [] -> systemContent body = trim p)
  /\ (forall v, file_search body = Some v
                <-> v <> [] /\ exists raw, OPENAI_VECTOR_STORE_ID env = Some raw /\ v = trim raw).
Proof.
  unfold openAIBody. cbn [model systemContent userContent max_output_tokens file_search].
  split; [|split; [|split; [reflexivity|split; [reflexivity|split; [|split; [|split]]]]]].
  - unfold orDefault. destruct (OPENAI_MODEL env); simpl; discriminate.
  - unfold orDefault. destruct (OPENAI_PROMPT env) as [p|]; simpl; [|discriminate].
    destruct (trim p); simpl; discriminate.
  - unfold orDefault. destruct (OPENAI_MODEL env); simpl; [tauto|reflexivity].
  - intros ->. reflexivity.
  - intros p -> Hp. simpl. unfold orDefault. destruct (trim p); [now elim Hp|reflexivity].
  - intros v. destruct (OPENAI_VECTOR_STORE_ID env) as [raw|]; simpl.
    + destruct (trim raw) as [|c r] eqn:E; simpl.
      * split; [discriminate|]. intros (Hv & raw' & Hr & ->). injection Hr as <-.
        now rewrite E in Hv.
      * split.
        -- intros H; injection H as <-. split; [discriminate|]. exists raw. auto.
        -- intros (_ & raw' & Hr & ->). injection Hr as <-. now rewrite E.
    + split; [discriminate|]. intros (_ & raw & Hr & _). discriminate.
Qed.

(** ** The reply call and the event pipeline *)


Lemma replyToLine_success_run (event : LineEvent) (message : jsstring) (env : Env)
    (net : Network) (resp : HttpResponse) :
  truthyOpt (replyToken event) = true ->
  net (PostLineReply (LINE_CHANNEL_ACCESS_TOKEN env) (replyToken event) message)
  = Responded resp ->
  resp_ok resp = true ->
  replyToLine event message env net
  = ([Fetch (PostLineReply (LINE_CHANNEL_ACCESS_TOKEN env) (replyToken event) message)],
     Fulfilled tt).
Proof.
  intros Htok Hn Hok. unfold replyToLine. rewrite Htok. cbn [negb].
  unfold bind, httpFetch. now rewrite Hn, Hok.
Qed.

(** X9. With a reply token, [replyToLine] sends exactly one request, which
    carries the token and the message as given; it fulfils exactly when the
    endpoint answers with a success status, and otherwise rejects with the
    status (logging it with the body) or with the network error. *)
Theorem replyToLine_with_token (event : LineEvent) (message : jsstring) (env : Env)
    (net : Network) :
  truthyOpt (replyToken event) = true ->
  let req := PostLineReply (LINE_CHANNEL_ACCESS_TOKEN env) (replyToken event) message in
  let run := replyToLine event message env net in
  requestsOf (fst run) = [req]
  /\ (snd run = Fulfilled tt <-> exists resp, net req = Responded resp /\ resp_ok resp = true)
  /\ (forall resp, net req = Responded resp -> resp_ok resp = false ->
        run = ([Fetch req;
                ConsoleError "LINE reply error"
                  [LogNumber (resp_status resp); LogString (resp_text resp)]],
               Rejected (LineReplyFailed (resp_status resp))))
  /\ (net req = Unreachable -> run = ([Fetch req], Rejected NetworkError)).
Proof.
  intros Htok req run. unfold run, replyToLine. rewrite Htok. cbn [negb].
  unfold bind, httpFetch. fold req.
  destruct (net req) as [resp|].
  - destruct (resp_ok resp) eqn:Eok; simpl.
    + split; [reflexivity|]. split; [split; [intros _; now exists resp|reflexivity]|].
      split; [|discriminate]. intros r Hr. injection Hr as <-. congruence.
    + split; [reflexivity|]. split.
      * split; [discriminate|]. intros (r & Hr & Hok). injection Hr as <-. congruence.
      * split; [|discriminate]. intros r Hr _. now injection Hr as <-.
  - simpl. split; [reflexivity|]. split.
    + split; [discriminate|]. intros (r & Hr & _). discriminate.
    + split; [discriminate|reflexivity].
Qed.



(** X11. The whole pipeline on one event. For an eligible text message with
    a non-empty question and a reply token, when the backend returns a text
    and the reply endpoint accepts, [handleEvent] performs exactly two
    effects in this order, the backend request with the extracted question
    and the reply with the first 1900 code units of the answer, and fulfils
    with [{ ok: true }]. *)
Theorem handleEvent_answers (rt : Runtime) (event : LineEvent) (env : Env) (net : Network)
    (m : LineTextMessage) (resp resp' : HttpResponse) (data : JsValue) (content : jsstring) :
  eventType event = str "message" ->
  message event = TextMessage m ->
  shouldRespond (isDirectChatEnabled rt env) (LINE_BOT_USER_ID env) (source event) m ->
  trim (extractQuestion m) <> [] ->
  truthyOpt (replyToken event) = true ->
  let asked := PostOpenAI (OPENAI_API_KEY env) (openAIBody (trim (extractQuestion m)) env) in
  let reply := PostLineReply (LINE_CHANNEL_ACCESS_TOKEN env) (replyToken event)
                 (firstn 1900 content) in
  net asked = Responded resp -> resp_ok resp = true ->
  resp_json resp = Some data -> extractOpenAIText data = Some content ->
  net reply = Responded resp' -> resp_ok resp' = true ->
  handleEvent rt event env net = ([Fetch asked; Fetch reply], Fulfilled {| ok := true |}).
Proof.
  intros Hty Hmsg He Hq Htok asked reply Hn Hok Hj Hx Hn' Hok'.
  rewrite (handleEvent_text rt event env m net Hty Hmsg He).
  destruct (trim (extractQuestion m)) as [|c q] eqn:Eq; [now elim Hq|].
  rewrite bind_run, (queryOpenAI_success_run (c :: q) env net resp data content Hn Hok Hj Hx).
  rewrite bind_run, (replyToLine_success_run event _ env net resp' Htok Hn' Hok').
  reflexivity.
Qed.

(** X12. Events that are not messages, and messages that are not text, are
    acknowledged without any effect: nothing is logged, nothing is sent. *)
Theorem handleEvent_ignores_other_events (rt : Runtime) (event : LineEvent) (env : Env)
    (net : Network) :
  eventType event <> str "message" \/ message event = OtherMessage ->
  handleEvent rt event env net = ([], Fulfilled {| ok := true |}).
Proof.
  intros H. unfold handleEvent.
  destruct (streq (eventType event) (str "message")) eqn:E; [|reflexivity].
  apply streq_true_iff in E. destruct H as [H|H]; [now elim H|].
  now rewrite H.
Qed.

(** ** The handler's answers *)

(** X13. When the key import cannot throw (the channel secret is not
    empty, or the request is not a POST with a non-empty signature header
    and so never reaches the import), the handler's answer is decided by the
    method, the signature and the parsed body, in this order: 405 for any
    method but POST; 401 for a POST whose signature does not verify; 400
    for a verified body that is not JSON; 200 for a verified JSON body with
    an [events] array; for any other verified JSON body the handler ends
    with an uncaught TypeError. Under that condition there is no other
    outcome. *)
Theorem fetch_outcomes (rt : Runtime) (request : HttpRequest) (env : Env)
    (world : nat -> Network) :
  (method request = str "POST" -> truthyOpt (x_line_signature request) = true ->
   LINE_CHANNEL_SECRET env <> []) ->
  let run := fetch rt request env world in
  let verified :=
    verifyLineSignature rt (bodyText request) (x_line_signature request)
      (LINE_CHANNEL_SECRET env) in
  let parsed := JSON_parse rt (bodyText request) in
  (outcome run = Response (str "Method Not Allowed") 405 <-> method request <> str "POST")
  /\ (outcome run = Response (str "Invalid signature") 401
      <-> method request = str "POST" /\ verified = false)
  /\ (outcome run = Response (str "Bad Request") 400
      <-> method request = str "POST" /\ verified = true /\ parsed = None)
  /\ (outcome run = Response (str "OK") 200
      <-> method request = str "POST" /\ verified = true
          /\ exists payload events,
               parsed = Some payload /\ member payload (str "events") = Some (JArray events))
  /\ (outcome run = Uncaught TypeError
      <-> method request = str "POST" /\ verified = true
          /\ exists payload,
               parsed = Some payload
               /\ forall events, member payload (str "events") <> Some (JArray events))
  /\ (outcome run = Response (str "Method Not Allowed") 405
      \/ outcome run = Response (str "Invalid signature") 401
      \/ outcome run = Response (str "Bad Request") 400
      \/ outcome run = Response (str "OK") 200
      \/ outcome run = Uncaught TypeError).
Proof.
  intros _. cbv zeta. unfold fetch.
  destruct (streq (method request) (str "POST")) eqn:Em; cbn [negb].
  - apply streq_true_iff in Em.
    destruct (verifyLineSignature rt (bodyText request) (x_line_signature request)
                (LINE_CHANNEL_SECRET env)) eqn:Ev; cbn [negb].
    + destruct (JSON_parse rt (bodyText request)) as [payload|] eqn:Ep.
      * assert (Hcases :
          (exists events, member payload (str "events") = Some (JArray events)
                          /\ payload <> JNull)
          \/ (forall events, member payload (str "events") <> Some (JArray events))).
        { destruct (member payload (str "events")) as [[| | | |events|]|] eqn:E;
            try (right; intros events; discriminate).
          left. exists events. split; [reflexivity|]. intros ->. discriminate E. }
        destruct Hcases as [(events & He & Hnn)|Hno].
        -- assert (Hrun : outcome
                     match payload with
                     | JNull => {| outcome := Uncaught TypeError; handlerLog := []; background := [] |}
                     | _ =>
                         match member payload (str "events") with
                         | Some (JArray events) =>
                             {| outcome := Response (str "OK") 200; handlerLog := [];
                                background :=
                                  mapi_from
                                    (fun i event => guardedTask rt (asLineEvent rt event) env (world i))
                                    0%nat events |}
                         | _ => {| outcome := Uncaught TypeError; handlerLog := []; background := [] |}
                         end
                     end = Response (str "OK") 200)
             by (destruct payload; try (now elim Hnn); rewrite He; reflexivity).
           rewrite Hrun.
           split; [split; [discriminate|intros H; now elim H]|].
           split; [split; [discriminate|intros (_ & H); discriminate]|].
           split; [split; [discriminate|intros (_ & _ & H); discriminate]|].
           split; [split; [intros _; repeat split; auto; now exists payload, events|reflexivity]|].
           split; [|tauto].
           split; [discriminate|].
           intros (_ & _ & p & Hp & Hn). injection Hp as <-. now elim (Hn events).
        -- assert (Hrun : outcome
                     match payload with
                     | JNull => {| outcome := Uncaught TypeError; handlerLog := []; background := [] |}
                     | _ =>
                         match member payload (str "events") with
                         | Some (JArray events) =>
                             {| outcome := Response (str "OK") 200; handlerLog := [];
                                background :=
                                  mapi_from
                                    (fun i event => guardedTask rt (asLineEvent rt event) env (world i))
                                    0%nat events |}
                         | _ => {| outcome := Uncaught TypeError; handlerLog := []; background := [] |}
                         end
                     end = Uncaught TypeError).
           { destruct payload; try reflexivity;
               destruct (member _ (str "events")) as [[| | | |evs|]|] eqn:E; try reflexivity;
               now elim (Hno evs). }
           rewrite Hrun.
           split; [split; [discriminate|intros H; now elim H]|].
           split; [split; [discriminate|intros (_ & H); discriminate]|].
           split; [split; [discriminate|intros (_ & _ & H); discriminate]|].
           split; [split; [discriminate|]|].
           { intros (_ & _ & p & evs & Hp & He). injection Hp as <-. now elim (Hno evs). }
           split; [|tauto].
           split; [intros _; repeat split; auto; now exists payload|reflexivity].
      * cbn [outcome].
        split; [split; [discriminate|intros H; now elim H]|].
        split; [split; [discriminate|intros (_ & H); discriminate]|].
        split; [split; [intros _; auto|reflexivity]|].
        split; [split; [discriminate|intros (_ & _ & p & evs & Hp & _); discriminate]|].
        split; [|tauto].
        split; [discriminate|intros (_ & _ & p & Hp & _); discriminate].
    + cbn [outcome].
      split; [split; [discriminate|intros H; now elim H]|].
      split; [split; [intros _; auto|reflexivity]|].
      split; [split; [discriminate|intros (_ & H & _); discriminate]|].
      split; [split; [discriminate|intros (_ & H & _); discriminate]|].
      split; [|tauto].
      split; [discriminate|intros (_ & H & _); discriminate].
  - assert (Hm : method request <> str "POST")
      by (intros H; rewrite H, streq_refl in Em; discriminate).
    cbn [outcome].
    split; [split; [intros _; exact Hm|reflexivity]|].
    split; [split; [discriminate|intros (H & _); now elim Hm]|].
    split; [split; [discriminate|intros (H & _); now elim Hm]|].
    split; [split; [discriminate|intros (H & _); now elim Hm]|].
    split; [|tauto].
    split; [discriminate|intros (H & _); now elim Hm].
Qed.

(** X14. A request that is not a POST, or whose signature does not verify,
    has no effect at all: nothing is logged, no event is processed, and the
    body is not even parsed, since the run is the same under any JSON
    parser and any reading of the events. *)
Theorem fetch_unauthenticated_inert (rt rt' : Runtime) (request : HttpRequest) (env : Env)
    (world : nat -> Network) :
  hmacSha256 rt' = hmacSha256 rt ->
  method request <> str "POST"
  \/ verifyLineSignature rt (bodyText request) (x_line_signature request)
       (LINE_CHANNEL_SECRET env) = false ->
  handlerLog (fetch rt request env world) = []
  /\ background (fetch rt request env world) = []
  /\ fetch rt' request env world = fetch rt request env world.
Proof.
  intros Hh H.
  assert (Hv : verifyLineSignature rt' (bodyText request) (x_line_signature request)
                 (LINE_CHANNEL_SECRET env)
               = verifyLineSignature rt (bodyText request) (x_line_signature request)
                   (LINE_CHANNEL_SECRET env))
    by (unfold verifyLineSignature; now rewrite Hh).
  unfold fetch. rewrite Hv.
  destruct (streq (method request) (str "POST")) eqn:Em; cbn [negb].
  - apply streq_true_iff in Em. destruct H as [H|H]; [now elim H|].
    rewrite H. cbn [negb]. repeat split.
  - repeat split.
Qed.

(** ** Edge cases of the extraction *)

Lemma Subseq_refl {A : Type} (l : list A) : Subseq l l.
Proof. induction l; [apply Subseq_nil|now apply Subseq_keep]. Qed.

Lemma Subseq_trans {A : Type} (a b c : list A) : Subseq a b -> Subseq b c -> Subseq a c.
Proof.
  intros Hab Hbc. revert a Hab.
  induction Hbc as [|x b c _ IH|x b c _ IH]; intros a Hab.
  - exact Hab.
  - constructor. now apply IH.
  - inversion Hab; subst.
    + apply Subseq_skip. now apply IH.
    + apply Subseq_keep. now apply IH.
Qed.

Lemma Subseq_nil_l {A : Type} (l : list A) : Subseq [] l.
Proof. induction l; [apply Subseq_nil|now apply Subseq_skip]. Qed.

Lemma Subseq_app {A : Type} (a a' b b' : list A) :
  Subseq a a' -> Subseq b b' -> Subseq (a ++ b) (a' ++ b').
Proof.
  intros Ha Hb. induction Ha; simpl;
    [exact Hb|now apply Subseq_skip|now apply Subseq_keep].
Qed.

Lemma Subseq_length {A : Type} (a b : list A) :
  Subseq a b -> (List.length a <= List.length b)%nat.
Proof. induction 1; simpl; lia. Qed.

Lemma Subseq_skipn {A : Type} (n : nat) (l : list A) : Subseq (skipn n l) l.
Proof.
  revert l; induction n as [|n IH]; intros [|x l]; simpl;
    try apply Subseq_refl. apply Subseq_skip. apply IH.
Qed.

Lemma Subseq_firstn {A : Type} (n : nat) (l : list A) : Subseq (firstn n l) l.
Proof.
  revert l; induction n as [|n IH]; intros [|x l]; simpl;
    try apply Subseq_nil_l. apply Subseq_keep. apply IH.
Qed.

Lemma Subseq_dropWhile {A : Type} (p : A -> bool) (l : list A) : Subseq (dropWhile p l) l.
Proof.
  induction l as [|x l IH]; simpl; [apply Subseq_nil|].
  destruct (p x); [now apply Subseq_skip|apply Subseq_refl].
Qed.

Lemma Subseq_snoc {A : Type} (a b : list A) (x : A) :
  Subseq a b -> Subseq a (b ++ [x]).
Proof.
  intros H. rewrite <- (app_nil_r a). apply Subseq_app; [exact H|].
  apply Subseq_skip, Subseq_nil.
Qed.

Lemma Subseq_rev {A : Type} (a b : list A) : Subseq a b -> Subseq (rev a) (rev b).
Proof.
  induction 1; simpl.
  - apply Subseq_nil.
  - now apply Subseq_snoc.
  - apply Subseq_app; [assumption|apply Subseq_refl].
Qed.

Lemma Subseq_trim (s : jsstring) : Subseq (trim s) s.
Proof.
  unfold trim, trimEnd, trimStart.
  eapply Subseq_trans; [|apply (Subseq_dropWhile isWhiteSpace s)].
  rewrite <- (rev_involutive (dropWhile isWhiteSpace s)) at 2.
  apply Subseq_rev, Subseq_dropWhile.
Qed.

Lemma slice_from_nonneg (s : jsstring) (k : Z) :
  0 <= k -> slice s k None = skipn (Z.to_nat k) s.
Proof.
  intros Hk.
  destruct (Z.le_gt_cases k (Z.of_nat (List.length s))) as [Hle|Hgt].
  - apply slice_suffix. lia.
  - unfold slice, relativeIndex.
    destruct (Z.ltb_spec k 0) as [Hlt|_]; [lia|].
    rewrite Z.min_r by lia. rewrite Z.leb_refl.
    symmetry. apply skipn_all2. lia.
Qed.

Lemma removeSpan_nonneg (t : jsstring) (m : Mentionee) :
  0 <= mIndex m -> 0 <= mIndex m + mLength m ->
  removeSpan t m
  = firstn (Z.to_nat (mIndex m)) t ++ skipn (Z.to_nat (mIndex m + mLength m)) t.
Proof.
  intros Hi Hn. unfold removeSpan.
  now rewrite slice_prefix, slice_from_nonneg by lia.
Qed.

Lemma Subseq_removeSpan (t : jsstring) (m : Mentionee) :
  0 <= mIndex m -> 0 <= mLength m -> Subseq (removeSpan t m) t.
Proof.
  intros Hi Hn. rewrite removeSpan_nonneg by lia.
  rewrite <- (firstn_skipn (Z.to_nat (mIndex m)) t) at 3.
  apply Subseq_app; [apply Subseq_refl|].
  replace (Z.to_nat (mIndex m + mLength m))
    with (Z.to_nat (mLength m) + Z.to_nat (mIndex m))%nat by lia.
  rewrite <- skipn_skipn. apply Subseq_skipn.
Qed.

(** X15. When no mention entry has a negative index or length, extraction
    only takes characters away: the question is the text with some
    characters left out, the others in their order, and so is never longer
    than the text. This holds for overlapping and out-of-range spans too. *)
Theorem extractQuestion_only_removes (msg : LineTextMessage) :
  (forall mn m, mention msg = Some mn -> In m (mentionees mn) ->
                0 <= mIndex m /\ 0 <= mLength m) ->
  Subseq (extractQuestion msg) (text msg)
  /\ (List.length (extractQuestion msg) <= List.length (text msg))%nat.
Proof.
  intros H.
  assert (Hs : Subseq (extractQuestion msg) (text msg)).
  { unfold extractQuestion. destruct (mention msg) as [mn|]; [|apply Subseq_refl].
    eapply Subseq_trans; [apply Subseq_trim|].
    assert (Hall : forall m, In m (sortDesc (mentionees mn)) -> 0 <= mIndex m /\ 0 <= mLength m).
    { intros m Hm. apply (H mn m eq_refl).
      eapply Permutation_in; [apply sortDesc_perm|exact Hm]. }
    clear H. generalize (text msg) as t. revert Hall.
    induction (sortDesc (mentionees mn)) as [|m l IH]; intros Hall t; simpl.
    - apply Subseq_refl.
    - eapply Subseq_trans; [apply IH; intros; apply Hall; now right|].
      destruct (Hall m (or_introl eq_refl)). now apply Subseq_removeSpan. }
  split; [exact Hs|now apply Subseq_length].
Qed.

(** X17. A message without mention entries. When [mention] is absent
    [extractQuestion] returns the text as it is, untrimmed; when the list of
    entries is empty it returns the trimmed text; in both cases the question
    that an eligible event sends to the backend is the trimmed text. *)
Theorem question_without_mentions (rt : Runtime) (event : LineEvent) (env : Env)
    (m : LineTextMessage) (net : Network) :
  eventType event = str "message" ->
  message event = TextMessage m ->
  shouldRespond (isDirectChatEnabled rt env) (LINE_BOT_USER_ID env) (source event) m ->
  mention m = None \/ mention m = Some {| mentionees := [] |} ->
  (mention m = None -> extractQuestion m = text m)
  /\ (mention m = Some {| mentionees := [] |} -> extractQuestion m = trim (text m))
  /\ (trim (text m) = [] -> handleEvent rt event env net = ([], Fulfilled {| ok := true |}))
  /\ (trim (text m) <> [] ->
      exists tr r,
        handleEvent rt event env net
        = (Fetch (PostOpenAI (OPENAI_API_KEY env) (openAIBody (trim (text m)) env)) :: tr, r)).
Proof.
  intros Hty Hmsg He Hm.
  assert (H1 : mention m = None -> extractQuestion m = text m)
    by (intros E; unfold extractQuestion; now rewrite E).
  assert (H2 : mention m = Some {| mentionees := [] |} -> extractQuestion m = trim (text m))
    by (intros E; unfold extractQuestion; now rewrite E).
  assert (Hq : trim (extractQuestion m) = trim (text m)).
  { destruct Hm as [E|E]; [now rewrite (H1 E)|rewrite (H2 E); apply trim_idem]. }
  split; [exact H1|]. split; [exact H2|].
  rewrite (handleEvent_text rt event env m net Hty Hmsg He), Hq.
  split.
  - now intros ->.
  - intros Hne. destruct (trim (text m)) as [|c q]; [now elim Hne|].
    destruct (queryOpenAI_head (c :: q) env net) as (tr & r & H).
    exact (bind_head _ _ _ _ _ _ H).
Qed.

(** ** The earlier revision, further *)

Lemma part000_awaitAll_In {A : Type} (tasks : list (list Effect * Settled A))
    (values : list A) (v : A) :
  Part000.awaitAll tasks = Fulfilled values -> In v values ->
  exists tr, In (tr, Fulfilled v) tasks.
Proof.
  revert values; induction tasks as [|[tr [a|e]] tasks IH]; intros values; simpl.
  - intros H; injection H as <-. intros [].
  - destruct (Part000.awaitAll tasks) as [l|e]; [|discriminate].
    intros H; injection H as <-. intros [<-|Hin].
    + exists tr. now left.
    + destruct (IH l eq_refl Hin) as [tr' Htr']. exists tr'. now right.
  - discriminate.
Qed.

Lemma part000_task_run (event : LineEvent) (env : Part000.Env) (net : Network) :
  Part000.task event env net
  = (fst (Part000.handleEvent event env net),
     Fulfilled match snd (Part000.handleEvent event env net) with
               | Fulfilled r => Part000.Handled r
               | Rejected e => Part000.Failed e
               end).
Proof.
  unfold Part000.task, catch, bind at 1.
  destruct (Part000.handleEvent event env net) as [tr [r|e]]; simpl; now rewrite app_nil_r.
Qed.

(** X18. The earlier revision awaits the events before it answers, and
    still answers 200 "OK" whatever happens inside them: each event gets
    one task, which performs the event's own effects and fulfils with
    [{ ok: true }] or with the caught error; of the caught errors only one
    is logged by the handler. *)
Theorem part000_fetch_contains_failures (rt : Runtime) (request : HttpRequest)
    (env : Part000.Env) (world : nat -> Network) (payload : JsValue) (events : list JsValue) :
  method request = str "POST" ->
  verifyLineSignature rt (bodyText request) (x_line_signature request)
    (Part000.LINE_CHANNEL_SECRET env) = true ->
  JSON_parse rt (bodyText request) = Some payload ->
  member payload (str "events") = Some (JArray events) ->
  let run := Part000.fetch rt request env world in
  Part000.outcome run = Response (str "OK") 200
  /\ (forall i ev,
        nth_error events i = Some ev ->
        let own := Part000.handleEvent (asLineEvent rt ev) env (world i) in
        nth_error (Part000.tasks run) i
        = Some (fst own,
                Fulfilled match snd own with
                          | Fulfilled r => Part000.Handled r
                          | Rejected e => Part000.Failed e
                          end))
  /\ List.length (Part000.tasks run) = List.length events
  /\ (Part000.handlerLog run = []
      \/ exists e tr,
           Part000.handlerLog run = [ConsoleError "Error handling event" [LogError e]]
           /\ In (tr, Fulfilled (Part000.Failed e)) (Part000.tasks run)).
Proof.
  intros Hm Hv Hp He run.
  destruct (part000_fetch_answers_200 rt request env world payload events Hm Hv Hp He)
    as (Hout & Htasks).
  fold run in Hout, Htasks.
  split; [exact Hout|]. split; [|split].
  - intros i ev Hi. cbv zeta. rewrite Htasks.
    rewrite (mapi_from_nth _ 0%nat events i ev Hi), Nat.add_0_l.
    apply f_equal, part000_task_run.
  - rewrite Htasks. apply mapi_from_length.
  - revert Htasks. unfold run, Part000.fetch. rewrite Hm, streq_refl, Hv, Hp. cbn [negb].
    set (started := mapi_from
                      (fun i event => Part000.task (asLineEvent rt event) env (world i))
                      0%nat events).
    assert (Hall : exists values, Part000.awaitAll started = Fulfilled values).
    { apply part000_awaitAll_fulfils. intros t Ht.
      apply In_mapi_from in Ht as (i & x & _ & ->). apply part000_task_fulfils. }
    destruct Hall as [values Hvalues].
    assert (Hgoal :
      forall run',
        run' = {| Part000.outcome := Response (str "OK") 200;
                  Part000.handlerLog :=
                    match find (fun r => match r with
                                         | Part000.Handled r => negb (ok r)
                                         | Part000.Failed _ => true
                                         end) values with
                    | Some (Part000.Failed error) =>
                        [ConsoleError "Error handling event" [LogError error]]
                    | _ => []
                    end;
                  Part000.tasks := started |} ->
        Part000.handlerLog run' = []
        \/ exists e tr,
             Part000.handlerLog run' = [ConsoleError "Error handling event" [LogError e]]
             /\ In (tr, Fulfilled (Part000.Failed e)) (Part000.tasks run')).
    { intros run' ->. cbn [Part000.handlerLog Part000.tasks].
      destruct (find _ values) as [[r|e]|] eqn:Ef; [now left| |now left].
      right. apply find_some in Ef as [Hin _].
      destruct (part000_awaitAll_In started values _ Hvalues Hin) as [tr Htr].
      now exists e, tr. }
    intros _. apply Hgoal.
    destruct payload; try discriminate He; rewrite He; fold started; rewrite Hvalues; reflexivity.
Qed.

(** X19. The earlier revision's [replyToLine] does not look at the reply
    token: also when the token is missing or empty it sends the request,
    with the token as it is, and its result depends only on the answer of
    the endpoint. *)
Theorem part000_replyToLine_ignores_token (replyToken : option jsstring)
    (message : jsstring) (env : Part000.Env) (net : Network) :
  let req := PostLineReply (Part000.LINE_CHANNEL_ACCESS_TOKEN env) replyToken message in
  let run := Part000.replyToLine replyToken message env net in
  requestsOf (fst run) = [req]
  /\ (snd run = Fulfilled tt <-> exists resp, net req = Responded resp /\ resp_ok resp = true).
Proof.
  cbv zeta. unfold Part000.replyToLine, bind, httpFetch.
  destruct (net _) as [resp|].
  - destruct (resp_ok resp) eqn:Eok; simpl.
    + split; [reflexivity|]. split; [intros _; now exists resp|reflexivity].
    + split; [reflexivity|]. split; [discriminate|].
      intros (r & Hr & Hok). injection Hr as <-. congruence.
  - simpl. split; [reflexivity|]. split; [discriminate|]. intros (r & Hr & _). discriminate.
Qed.

(** X20. In the earlier revision an answer of [queryOpenAI] is the trimmed
    [content] of the first choice, cut to its first 1900 code units, and is
    never empty; a [content] that is present but not a string makes the
    call reject with a TypeError instead of "response is empty". *)
Theorem part000_queryOpenAI_answers (question : jsstring) (env : Part000.Env) (net : Network) :
  let req := PostChatCompletions (Part000.OPENAI_API_KEY env) (Part000.chatBody question env) in
  let content data :=
    optChain
      (optChain (optChain (member data (str "choices")) index0)
         (fun c => member c (str "message")))
      (fun m => member m (str "content")) in
  (forall answer,
     snd (Part000.queryOpenAI question env net) = Fulfilled answer ->
     fst (Part000.queryOpenAI question env net) = [Fetch req]
     /\ answer <> [] /\ Z.of_nat (List.length answer) <= 1900
     /\ exists resp data s,
          net req = Responded resp /\ resp_json resp = Some data
          /\ content data = Some (JString s) /\ answer = firstn 1900 (trim s))
  /\ (forall resp data v,
        net req = Responded resp -> resp_ok resp = true -> resp_json resp = Some data ->
        data <> JNull -> content data = Some v -> v <> JNull -> (forall s, v <> JString s) ->
        snd (Part000.queryOpenAI question env net) = Rejected TypeError).
Proof.
  cbv zeta. unfold Part000.queryOpenAI, bind, httpFetch.
  set (req := PostChatCompletions (Part000.OPENAI_API_KEY env) (Part000.chatBody question env)).
  split.
  - intros answer.
    destruct (net req) as [resp|] eqn:En; [|discriminate].
    destruct (resp_ok resp); simpl; [|discriminate].
    destruct (resp_json resp) as [data|] eqn:Ej; simpl; [|discriminate].
    destruct data; try discriminate;
      match goal with
      | |- context [match ?c with _ => _ end] =>
          destruct c as [[| | |s| |]|] eqn:Ec; try discriminate
      end;
      (destruct (trim s) as [|c0 r] eqn:Et; simpl; [discriminate|];
       intros H; injection H as <-;
       split; [reflexivity|]; split; [rewrite slice_prefix by lia; discriminate|];
       split; [rewrite slice_prefix by lia; rewrite length_firstn; lia|];
       eexists resp, _, s; split; [reflexivity|]; split; [exact Ej|];
       split; [exact Ec|]; rewrite Et; now rewrite slice_prefix by lia).
  - intros resp data v Hn Hok Hj Hnn Hc Hv Hs. rewrite Hn, Hok. simpl. rewrite Hj. simpl.
    destruct data; try (now elim Hnn); rewrite Hc;
      (destruct v; try reflexivity; [now elim Hv|now elim (Hs s)]).
Qed.

Lemma part000_queryOpenAI_head (question : jsstring) (env : Part000.Env) (net : Network) :
  exists tr r,
    Part000.queryOpenAI question env net
    = (Fetch (PostChatCompletions (Part000.OPENAI_API_KEY env)
                (Part000.chatBody question env)) :: tr, r).
Proof.
  unfold Part000.queryOpenAI. apply bind_head with (tr := []) (r :=
    match net (PostChatCompletions (Part000.OPENAI_API_KEY env)
                 (Part000.chatBody question env)) with
    | Responded r => Fulfilled r
    | Unreachable => Rejected NetworkError
    end).
  reflexivity.
Qed.

(** X21. The earlier revision has one eligibility rule: a text message is
    passed to the backend exactly when the bot's user id is among the
    mention entries and the question is not empty; a one-to-one
    conversation makes no difference. *)
Theorem part000_handleEvent_eligibility (event : LineEvent) (env : Part000.Env)
    (m : LineTextMessage) (net : Network) :
  eventType event = str "message" ->
  message event = TextMessage m ->
  ((exists tr r,
      Part000.handleEvent event env net
      = (Fetch (PostChatCompletions (Part000.OPENAI_API_KEY env)
                  (Part000.chatBody (trim (extractQuestion m)) env)) :: tr, r))
   <-> botAmongMentions (Part000.LINE_BOT_USER_ID env) m /\ trim (extractQuestion m) <> [])
  /\ (~ botAmongMentions (Part000.LINE_BOT_USER_ID env) m ->
      Part000.handleEvent event env net = ([], Fulfilled {| ok := true |})).
Proof.
  intros Hty Hmsg.
  split; [|now apply part000_unmentioned_no_reply].
  unfold Part000.handleEvent. rewrite Hty, streq_refl, Hmsg. cbn [negb isTextMessage].
  rewrite <- isBotMentioned_iff.
  destruct (isBotMentioned m (Part000.LINE_BOT_USER_ID env)); cbn [negb].
  - destruct (trim (extractQuestion m)) as [|c q]; cbn [truthy negb].
    + split; [intros (tr & r & H); discriminate|intros [_ H]; now elim H].
    + split; [intros _; split; [reflexivity|discriminate]|]. intros _.
      destruct (part000_queryOpenAI_head (c :: q) env net) as (tr & r & H).
      exact (bind_head _ _ _ _ _ _ H).
  - split; [intros (tr & r & H); discriminate|intros [H _]; discriminate].
Qed.

(** ** The further properties at concrete inputs *)

Lemma arrayBufferToBase64_injective_witness :
  base64Decode (arrayBufferToBase64 [104; 105; 33; 255]) = [104; 105; 33; 255]
  /\ (arrayBufferToBase64 [104; 105; 33; 255] = arrayBufferToBase64 [104; 105; 33; 254] ->
      [104; 105; 33; 255] = [104; 105; 33; 254]).
Proof.
  apply (arrayBufferToBase64_injective [104; 105; 33; 255] [104; 105; 33; 254]); reflexivity.
Defined.

Lemma arrayBufferToBase64_shape_witness :
  forallb isByte (standInDigest (str "secret") (str "{}")) = true
  /\ List.length (arrayBufferToBase64 (standInDigest (str "secret") (str "{}"))) = 44%nat.
Proof.
  split; [reflexivity|].
  apply (arrayBufferToBase64_shape (standInDigest (str "secret") (str "{}"))); reflexivity.
Defined.

Lemma verifyLineSignature_iff_witness :
  verifyLineSignature sampleRt (str "{}") (Some (str "forged")) (str "secret") = true
  <-> exists s, Some (str "forged") = Some s /\ s <> []
                /\ s = arrayBufferToBase64 (hmacSha256 sampleRt (str "secret") (str "{}")).
Proof.
  apply (verifyLineSignature_iff sampleRt (str "{}") (str "secret") (Some (str "forged"))).
  - reflexivity.
  - intros s H. injection H as <-. reflexivity.
Defined.

Lemma queryOpenAI_rejections_witness :
  let req := PostOpenAI (str "sk-key") (openAIBody (str "hello") sampleEnv) in
  queryOpenAI (str "hello") sampleEnv failingNetwork
  = ([Fetch req;
      ConsoleError "OpenAI API error" [LogNumber 503; LogString (str "unavailable")]],
     Rejected (OpenAIFailed 503))
  /\ ((failingNetwork req = Unreachable /\ OpenAIFailed 503 = NetworkError
       /\ [Fetch req;
           ConsoleError "OpenAI API error" [LogNumber 503; LogString (str "unavailable")]]
          = [Fetch req])
      \/ exists resp, failingNetwork req = Responded resp).
Proof.
  cbv zeta. split; [reflexivity|].
  destruct (queryOpenAI_rejections (str "hello") sampleEnv failingNetwork _ _ eq_refl)
    as [H|(resp & H & _)].
  - left. exact H.
  - right. now exists resp.
Defined.

Lemma replyToLine_with_token_witness :
  let event := textEvent groupSource (Some (str "T1")) (textMessage "@Bot one" (Some [mentionBot 0 4])) in
  truthyOpt (replyToken event) = true
  /\ requestsOf (fst (replyToLine event (str "answer") sampleEnv sampleNetwork))
     = [PostLineReply (str "line-token") (Some (str "T1")) (str "answer")].
Proof.
  cbv zeta. split; [reflexivity|].
  apply (replyToLine_with_token
           (textEvent groupSource (Some (str "T1")) (textMessage "@Bot one" (Some [mentionBot 0 4])))
           (str "answer") sampleEnv sampleNetwork).
  reflexivity.
Defined.

Lemma handleEvent_answers_witness :
  let m := textMessage "@Bot one" (Some [mentionBot 0 4]) in
  let event := textEvent groupSource (Some (str "T1")) m in
  trim (extractQuestion m) <> []
  /\ handleEvent sampleRt event sampleEnv sampleNetwork
     = ([Fetch (PostOpenAI (str "sk-key") (openAIBody (trim (extractQuestion m)) sampleEnv));
         Fetch (PostLineReply (str "line-token") (Some (str "T1"))
                  (firstn 1900 (str "re: one")))],
        Fulfilled {| ok := true |}).
Proof.
  cbv zeta.
  assert (Hq : trim (extractQuestion (textMessage "@Bot one" (Some [mentionBot 0 4]))) <> [])
    by (vm_compute; discriminate).
  split; [exact Hq|].
  apply (handleEvent_answers sampleRt
           (textEvent groupSource (Some (str "T1")) (textMessage "@Bot one" (Some [mentionBot 0 4])))
           sampleEnv sampleNetwork (textMessage "@Bot one" (Some [mentionBot 0 4]))
           (okResponse (JObject [field "output_text" (JString (str "re: one"))]))
           (okResponse (JObject []))
           (JObject [field "output_text" (JString (str "re: one"))])
           (str "re: one")).
  - reflexivity.
  - reflexivity.
  - unfold shouldRespond. simpl.
    exists (mkMention [mentionBot 0 4]), (mentionBot 0 4).
    split; [reflexivity|]. split; [now left|reflexivity].
  - exact Hq.
  - reflexivity.
  - vm_compute; reflexivity.
  - reflexivity.
  - reflexivity.
  - reflexivity.
  - reflexivity.
  - reflexivity.
Defined.

Lemma handleEvent_ignores_other_events_witness :
  let event := {| eventType := str "follow"; replyToken := Some (str "T1");
                  source := directSource; webhookEventId := str "E1";
                  message := OtherMessage |} in
  eventType event <> str "message"
  /\ handleEvent sampleRt event (withFlag (Some (str "true"))) sampleNetwork
     = ([], Fulfilled {| ok := true |}).
Proof.
  cbv zeta.
  assert (Hne : str "follow" <> str "message") by discriminate.
  split; [exact Hne|].
  apply (handleEvent_ignores_other_events sampleRt
           {| eventType := str "follow"; replyToken := Some (str "T1");
              source := directSource; webhookEventId := str "E1";
              message := OtherMessage |}).
  left. exact Hne.
Defined.

Lemma fetch_unauthenticated_inert_witness :
  let request := {| method := str "GET"; x_line_signature := None;
                    bodyText := stringify samplePayload |} in
  method request <> str "POST"
  /\ handlerLog (fetch sampleRt request sampleEnv (fun _ => sampleNetwork)) = []
  /\ background (fetch sampleRt request sampleEnv (fun _ => sampleNetwork)) = []
  /\ fetch (sampleRuntime []) request sampleEnv (fun _ => sampleNetwork)
     = fetch sampleRt request sampleEnv (fun _ => sampleNetwork).
Proof.
  cbv zeta.
  assert (Hne : str "GET" <> str "POST") by discriminate.
  split; [exact Hne|].
  apply (fetch_unauthenticated_inert sampleRt (sampleRuntime [])
           {| method := str "GET"; x_line_signature := None;
              bodyText := stringify samplePayload |} sampleEnv (fun _ => sampleNetwork)).
  - reflexivity.
  - left. exact Hne.
Defined.

Lemma extractQuestion_only_removes_witness :
  Subseq (extractQuestion overlapMessage) (text overlapMessage)
  /\ (List.length (extractQuestion overlapMessage) <= List.length (text overlapMessage))%nat.
Proof.
  apply (extractQuestion_only_removes overlapMessage).
  intros mn m Hmn Hin. injection Hmn as <-.
  destruct Hin as [<-|[<-|[]]]; split; apply Z.leb_le; reflexivity.
Defined.

Lemma question_without_mentions_witness :
  let m := textMessage "  hello  " None in
  let event := textEvent directSource (Some (str "T1")) m in
  let env := withFlag (Some (str "true")) in
  extractQuestion m = str "  hello  "
  /\ (trim (text m) <> [] ->
      exists tr r,
        handleEvent sampleRt event env sampleNetwork
        = (Fetch (PostOpenAI (str "sk-key") (openAIBody (trim (text m)) env)) :: tr, r)).
Proof.
  cbv zeta.
  destruct (question_without_mentions sampleRt
              (textEvent directSource (Some (str "T1")) (textMessage "  hello  " None))
              (withFlag (Some (str "true"))) (textMessage "  hello  " None) sampleNetwork)
    as (H1 & _ & _ & H4).
  - reflexivity.
  - reflexivity.
  - exact I.
  - left. reflexivity.
  - split; [now apply H1|exact H4].
Defined.

Lemma part000_fetch_contains_failures_witness :
  let request := signedPost sampleRt sampleEnv (stringify samplePayload) in
  let run := Part000.fetch sampleRt request sampleEnv000 (fun _ => failingNetwork) in
  Part000.outcome run = Response (str "OK") 200
  /\ List.length (Part000.tasks run) = 3%nat
  /\ Part000.handlerLog run = [ConsoleError "Error handling event" [LogError (OpenAIFailed 503)]].
Proof.
  cbv zeta.
  destruct (part000_fetch_contains_failures sampleRt
              (signedPost sampleRt sampleEnv (stringify samplePayload)) sampleEnv000
              (fun _ => failingNetwork) samplePayload
              [sampleEventJson "E1" "T1" "@Bot one" 4;
               sampleEventJson "E2" "T2" "@Bot two" 4;
               sampleEventJson "E3" "T3" "@Bot three" 4])
    as (H1 & _ & H3 & _).
  - reflexivity.
  - vm_compute; reflexivity.
  - vm_compute; reflexivity.
  - reflexivity.
  - split; [exact H1|]. split; [exact H3|]. vm_compute. reflexivity.
Defined.

Lemma part000_handleEvent_eligibility_witness :
  let m := textMessage "@Bot one" (Some [mentionBot 0 4]) in
  let event := textEvent directSource None m in
  botAmongMentions (str "Ubot") m
  /\ exists tr r,
       Part000.handleEvent event sampleEnv000 sampleChatNetwork
       = (Fetch (PostChatCompletions (str "sk-key")
                   (Part000.chatBody (trim (extractQuestion m)) sampleEnv000)) :: tr, r).
Proof.
  cbv zeta.
  assert (Hb : botAmongMentions (str "Ubot") (textMessage "@Bot one" (Some [mentionBot 0 4]))).
  { exists (mkMention [mentionBot 0 4]), (mentionBot 0 4).
    split; [reflexivity|]. split; [now left|reflexivity]. }
  split; [exact Hb|].
  apply (part000_handleEvent_eligibility
           (textEvent directSource None (textMessage "@Bot one" (Some [mentionBot 0 4])))
           sampleEnv000 (textMessage "@Bot one" (Some [mentionBot 0 4])) sampleChatNetwork).
  - reflexivity.
  - reflexivity.
  - split; [exact Hb|vm_compute; discriminate].
Defined.

(** The earlier revision on a message that mentions the bot, with no reply
    token: the chat endpoint is asked and the reply is sent all the same. *)
Example part000_reply_without_token :
  requestsOf
    (fst (Part000.handleEvent
            (textEvent groupSource None (textMessage "@Bot one" (Some [mentionBot 0 4])))
            sampleEnv000 sampleChatNetwork))
  = [PostChatCompletions (str "sk-key") (Part000.chatBody (str "one") sampleEnv000);
     PostLineReply (str "line-token") None (str "re: one")].
Proof. reflexivity. Qed.

(* ===================================================================== *)
(** * Part V. Extraction and the limit on the length of a string          *)
(* ===================================================================== *)

(** ** The loop with the failure of [+] written out *)








(** ** An entry that doubles the text *)





(** ** Two spans that overlap *)




(** ** The reply token in the earlier revision *)

(** C9. The earlier revision does not treat a missing or empty reply token
    as a no-op. On a message that mentions the bot and has no reply token
    (or an empty one), after the backend has answered, it sends the reply
    request without token; the endpoint refuses it and [handleEvent]
    rejects with "LINE reply failed". [index.ts] on the same event skips
    the dispatch, logs a warning and raises no error. *)
Theorem part000_missing_token_is_dispatched :
  let m := textMessage "@Bot one" (Some [mentionBot 0 4]) in
  let asked := Fetch (PostChatCompletions (str "sk-key")
                        (Part000.chatBody (str "one") sampleEnv000)) in
  let refused := ConsoleError "LINE reply error"
                   [LogNumber 400; LogString (str "Invalid reply token")] in
  Part000.handleEvent (textEvent groupSource None m) sampleEnv000 strictReplyNetwork
  = ([asked; Fetch (PostLineReply (str "line-token") None (str "re: one")); refused],
     Rejected (LineReplyFailed 400))
  /\ Part000.handleEvent (textEvent groupSource (Some []) m) sampleEnv000 strictReplyNetwork
     = ([asked; Fetch (PostLineReply (str "line-token") (Some []) (str "re: one")); refused],
        Rejected (LineReplyFailed 400))
  /\ replyToLine (textEvent groupSource None m) (str "re: one") sampleEnv strictReplyNetwork
     = ([ConsoleWarn "No reply token to respond" [LogString (str "E1")]], Fulfilled tt)
  /\ replyToLine (textEvent groupSource (Some []) m) (str "re: one") sampleEnv strictReplyNetwork
     = ([ConsoleWarn "No reply token to respond" [LogString (str "E1")]], Fulfilled tt).
Proof. cbv zeta. repeat split; vm_compute; reflexivity. Qed.

(** ** Where the backend's text comes from *)

Lemma nonBlankString_from (v : option JsValue) (t : jsstring) :
  nonBlankString v = Some t -> exists s, v = Some (JString s) /\ t = trim s.
Proof.
  intros H. destruct (nonBlankString_some v t H) as (_ & _ & s & Hs). now exists s.
Qed.

(** X5. [extractOpenAIText] never returns an empty or blank text, and what
    it returns is taken from the response: it is the trimmed value of a
    string found in the object at [output_text], or at [text] in an element
    of the [content] array of an element of the [output] array, or at
    [choices[0].message.content]; a non-blank [output_text] wins over the
    other two. A response that is not an object gives null. *)
Theorem extractOpenAIText_nonblank (data : JsValue) (t : jsstring) :
  extractOpenAIText data = Some t ->
  t <> [] /\ trim t = t
  /\ (exists members, data = JObject members)
  /\ (exists s,
        t = trim s
        /\ (member data (str "output_text") = Some (JString s)
            \/ (exists output item content c,
                  member data (str "output") = Some (JArray output) /\ In item output
                  /\ member item (str "content") = Some (JArray content) /\ In c content
                  /\ member c (str "text") = Some (JString s))
            \/ optChain
                 (optChain (optChain (member data (str "choices")) index0)
                    (fun c => member c (str "message")))
                 (fun m => member m (str "content")) = Some (JString s)))
  /\ (forall s, member data (str "output_text") = Some (JString s) -> trim s <> [] ->
                t = trim s).
Proof.
  intros H.
  destruct (extractOpenAIText_text data t H) as (H1 & H2 & _).
  split; [exact H1|]. split; [exact H2|].
  destruct data as [| | | | |members]; try discriminate H.
  split; [now exists members|].
  unfold extractOpenAIText in H. cbv zeta in H.
  destruct (nonBlankString (member (JObject members) (str "output_text"))) as [t0|] eqn:E0.
  { injection H as ->. destruct (nonBlankString_from _ _ E0) as (s & Hs & ->).
    split; [exists s; auto|].
    intros s' Hs' _. rewrite Hs in Hs'. now injection Hs' as <-. }
  split.
  - destruct (member (JObject members) (str "output")) as [[|b|n|s0|output|ms]|] eqn:Eo;
      cbv beta iota in H;
      try (destruct (nonBlankString_from _ _ H) as (s & Hs & ->); exists s; now auto).
    match type of H with
    | match ?f with _ => _ end = _ => destruct f as [t1|] eqn:E1
    end.
    + injection H as ->.
      apply firstSome_some in E1 as (item & Hitem & Hf).
      assert (Hc : exists content,
                 member item (str "content") = Some (JArray content)
                 /\ firstSome
                      (fun c => match c with
                                | JObject _ => nonBlankString (member c (str "text"))
                                | _ => None
                                end) content = Some t).
      { destruct item; try discriminate Hf;
          (destruct (member _ (str "content")) as [[| | | |content|]|];
           try discriminate Hf; now exists content). }
      destruct Hc as (content & Hcontent & Hfc).
      apply firstSome_some in Hfc as (c & Hc & Hfc).
      destruct c as [| | | | |cm]; try discriminate Hfc.
      destruct (nonBlankString_from _ _ Hfc) as (s & Hs & ->).
      exists s. split; [reflexivity|]. right. left.
      exists output, item, content, (JObject cm). auto.
    + destruct (nonBlankString_from _ _ H) as (s & Hs & ->). exists s. now auto.
  - intros s Hs Hne. rewrite Hs in E0. simpl in E0.
    destruct (trim s); [now elim Hne|discriminate].
Qed.

(** ** One removal at the edges of the text *)

Lemma slice_from (s : jsstring) (k : Z) :
  slice s k None = skipn (Z.to_nat (relativeIndex (Z.of_nat (List.length s)) k)) s.
Proof.
  unfold slice.
  assert (Hb := relativeIndex_bounds (Z.of_nat (List.length s)) k (Nat2Z.is_nonneg _)).
  set (from := relativeIndex (Z.of_nat (List.length s)) k) in *.
  destruct (Z.leb_spec (Z.of_nat (List.length s)) from) as [Hle|Hgt].
  - symmetry. apply skipn_all2. lia.
  - unfold substring. apply firstn_all2. rewrite length_skipn. lia.
Qed.

(** X16. One removal step, for an entry whose index is not negative. The
    step keeps the first [index] characters and appends the text from the
    position [index + length] on, that position clamped into the text and
    counted from the end when it is negative. Hence: a span of length zero
    removes nothing; a span of non-negative length that starts at or after
    the end of the text removes nothing; a span that reaches or passes the
    end of the text removes the rest of the text; and a negative length
    with [0 <= index + length] and [index] inside the text removes nothing
    and repeats the characters between [index + length] and [index]. *)
Theorem removeSpan_edges (t : jsstring) (m : Mentionee) :
  0 <= mIndex m ->
  removeSpan t m
  = firstn (Z.to_nat (mIndex m)) t
    ++ skipn (Z.to_nat (relativeIndex (Z.of_nat (List.length t)) (mIndex m + mLength m))) t
  /\ (mLength m = 0 -> removeSpan t m = t)
  /\ (Z.of_nat (List.length t) <= mIndex m -> 0 <= mLength m -> removeSpan t m = t)
  /\ (Z.of_nat (List.length t) <= mIndex m + mLength m ->
      removeSpan t m = firstn (Z.to_nat (mIndex m)) t)
  /\ (mLength m < 0 -> 0 <= mIndex m + mLength m -> mIndex m <= Z.of_nat (List.length t) ->
      removeSpan t m
      = firstn (Z.to_nat (mIndex m)) t
        ++ substring t (mIndex m + mLength m) (mIndex m)
        ++ skipn (Z.to_nat (mIndex m)) t).
Proof.
  intros Hi. split; [|split; [|split; [|split]]].
  - unfold removeSpan. now rewrite slice_prefix, slice_from by lia.
  - intros Hz. rewrite removeSpan_nonneg by lia. rewrite Hz, Z.add_0_r. apply firstn_skipn.
  - intros Hlen Hn. rewrite removeSpan_nonneg by lia.
    rewrite firstn_all2 by lia. rewrite skipn_all2 by lia. apply app_nil_r.
  - intros Hend. rewrite removeSpan_nonneg by lia.
    rewrite (skipn_all2 (n := Z.to_nat (mIndex m + mLength m))) by lia. apply app_nil_r.
  - intros Hneg Hsum Hlen. rewrite removeSpan_nonneg by lia. f_equal.
    unfold substring.
    rewrite <- (firstn_skipn (Z.to_nat (mIndex m - (mIndex m + mLength m)))
                  (skipn (Z.to_nat (mIndex m + mLength m)) t)) at 1.
    f_equal. rewrite skipn_skipn. f_equal. lia.
Qed.

(** ** The revised statements at concrete inputs *)



Lemma extractOpenAIText_nonblank_witness :
  let data := JObject [field "output_text" (JString (str "  "));
                       field "choices"
                         (JArray [JObject [field "message"
                                             (JObject [field "content"
                                                         (JString (str " hi "))])]])] in
  extractOpenAIText data = Some (str "hi")
  /\ exists s,
       str "hi" = trim s
       /\ (member data (str "output_text") = Some (JString s)
           \/ (exists output item content c,
                 member data (str "output") = Some (JArray output) /\ In item output
                 /\ member item (str "content") = Some (JArray content) /\ In c content
                 /\ member c (str "text") = Some (JString s))
           \/ optChain
                (optChain (optChain (member data (str "choices")) index0)
                   (fun c => member c (str "message")))
                (fun m => member m (str "content")) = Some (JString s)).
Proof.
  cbv zeta.
  assert (E : extractOpenAIText
                (JObject [field "output_text" (JString (str "  "));
                          field "choices"
                            (JArray [JObject [field "message"
                                                (JObject [field "content"
                                                            (JString (str " hi "))])]])])
              = Some (str "hi")) by reflexivity.
  split; [exact E|].
  destruct (extractOpenAIText_nonblank _ (str "hi") E) as (_ & _ & _ & H & _).
  exact H.
Defined.

Lemma fetch_outcomes_witness :
  let request := signedPost sampleRt sampleEnv (str "{") in
  LINE_CHANNEL_SECRET sampleEnv <> []
  /\ outcome (fetch sampleRt request sampleEnv (fun _ => sampleNetwork))
     = Response (str "Bad Request") 400.
Proof.
  cbv zeta.
  assert (Hs : LINE_CHANNEL_SECRET sampleEnv <> []) by discriminate.
  split; [exact Hs|].
  destruct (fetch_outcomes sampleRt (signedPost sampleRt sampleEnv (str "{")) sampleEnv
              (fun _ => sampleNetwork) (fun _ _ => Hs)) as (_ & _ & H & _).
  apply H. split; [reflexivity|]. split; vm_compute; reflexivity.
Defined.

Lemma removeSpan_edges_witness :
  removeSpan (str "hello") (mentionBot 9 3) = str "hello"
  /\ removeSpan (str "hello") (mentionBot 3 40) = str "hel"
  /\ removeSpan (str "hello") (mentionBot 3 0) = str "hello"
  /\ removeSpan (str "abcdef") (mentionBot 4 (-2))
     = firstn 4 (str "abcdef") ++ substring (str "abcdef") 2 4 ++ skipn 4 (str "abcdef")
  /\ removeSpan (str "abcdef") (mentionBot 2 (-5))
     = firstn 2 (str "abcdef") ++ skipn 3 (str "abcdef").
Proof.
  split; [|split; [|split; [|split]]].
  - destruct (removeSpan_edges (str "hello") (mentionBot 9 3)) as (_ & _ & H & _);
      [|apply H]; apply Z.leb_le; reflexivity.
  - destruct (removeSpan_edges (str "hello") (mentionBot 3 40)) as (_ & _ & _ & H & _);
      [|apply H]; apply Z.leb_le; reflexivity.
  - destruct (removeSpan_edges (str "hello") (mentionBot 3 0)) as (_ & H & _);
      [apply Z.leb_le; reflexivity|now apply H].
  - destruct (removeSpan_edges (str "abcdef") (mentionBot 4 (-2))) as (_ & _ & _ & _ & H);
      [apply Z.leb_le; reflexivity|].
    apply H; [apply Z.ltb_lt|apply Z.leb_le|apply Z.leb_le]; reflexivity.
  - destruct (removeSpan_edges (str "abcdef") (mentionBot 2 (-5))) as (H & _);
      [apply Z.leb_le; reflexivity|exact H].
Defined.
